(** * Google Drive upload engine: a shallow embedding of
      [bot/helper/mirror_leech_utils/gdrive_utils/upload.py]

    The class [GoogleDriveUpload] is modelled by explicit state passing.
    [World] holds the attributes the transfer code mutates together with
    what it can observe of its surroundings: the replies of the Drive
    service to the upload requests (a script consumed one reply per
    request), a log of the calls made to collaborators, and a logical
    clock against which the externally owned cancellation flag is read.
    Exceptions are values of [exn]; a computation either returns, raises,
    or has no result within the given script and recursion budget
    ([None]).  The calls into the helper class and the listener
    ([set_permission], [create_directory], the callbacks) are taken to
    return; the upload requests ([next_chunk] and the non-resumable
    [create]) answer as the script says; the look-up and the deletion of a
    remote object and [os.remove] return or raise as [Env] says.  A
    directory is given with its listing, so that a walk is a walk of a
    directory that could be listed.  The size of a local file is the one
    it had when the job was given it: an attempt that follows the removal
    of the file is followed as if the file were still there, so nothing is
    stated here about the attempts that come after a removal. *)

From Stdlib Require Import List String Ascii ZArith NArith Bool Arith Lia.
Import ListNotations.
Set Warnings "-register-all".
Open Scope string_scope.

(** ** Python string operations used by the source *)

Module PyStr.

Definition lower_ascii (c : ascii) : ascii :=
  let n := nat_of_ascii c in
  if ((65 <=? n)%nat && (n <=? 90)%nat)%bool then ascii_of_nat (n + 32) else c.

(** [s.lower()] (on the ASCII range). *)
Fixpoint lower (s : string) : string :=
  match s with
  | EmptyString => EmptyString
  | String c s' => String (lower_ascii c) (lower s')
  end.

(** [s.startswith(pre)]. *)
Definition startswith (s pre : string) : bool := String.prefix pre s.

(** [s.endswith(suf)]. *)
Definition endswith (s suf : string) : bool :=
  let n := String.length s in
  let m := String.length suf in
  ((m <=? n)%nat && String.eqb (substring (n - m) m s) suf)%bool.

(** [s.endswith(tuple(sufs))]: true when some member is a suffix. *)
Definition endswith_any (s : string) (sufs : list string) : bool :=
  existsb (endswith s) sufs.

Fixpoint drop (n : nat) (s : string) : string :=
  match n, s with
  | S n', String _ s' => drop n' s'
  | _, _ => s
  end.

(** [s.replace(pre, empty, 1)] on a string that starts with [pre]: the
    prefix is cut off. *)
Definition replace_prefix (pre s : string) : string :=
  drop (String.length pre) s.

Definition slash : ascii := "/"%char.

Fixpoint last_segment_from (acc s : string) : string :=
  match s with
  | EmptyString => acc
  | String c s' =>
      if Ascii.eqb c slash then last_segment_from EmptyString s'
      else last_segment_from (acc ++ String c EmptyString) s'
  end.

(** [s.split("/")[-1]]. *)
Definition last_segment (s : string) : string :=
  last_segment_from EmptyString s.

(** [os.path.join(a, b)] (posix). *)
Definition join (a b : string) : string :=
  if startswith b "/" then b
  else if (String.eqb a EmptyString || endswith a "/")%bool then a ++ b
  else a ++ "/" ++ b.

(** [x in xs] for a list of strings. *)
Definition mem (x : string) (xs : list string) : bool :=
  existsb (String.eqb x) xs.

Fixpoint remove_chars (bad : list ascii) (s : string) : string :=
  match s with
  | EmptyString => EmptyString
  | String c s' =>
      if existsb (Ascii.eqb c) bad then remove_chars bad s'
      else String c (remove_chars bad s')
  end.

End PyStr.

(** ** Exceptions *)

(** What [eval(err.content).get("error").get("errors")[0].get("reason")]
    evaluates to: the reason of a well-shaped error payload (possibly
    absent), or the exception the expression itself raises on a payload of
    another shape. *)
Inductive payload : Type :=
| ErrorPayload (reason : option string)
| BadPayload (cls msg : string).

Inductive exn : Type :=
| HttpError (status : Z) (content_type : string) (content : payload)
            (text : string)
| RetryError (attempt_number : nat) (last_attempt : exn)
| PyError (cls msg : string).

Definition class_name (e : exn) : string :=
  match e with
  | HttpError _ _ _ _ => "HttpError"
  | RetryError _ _ => "RetryError"
  | PyError cls _ => cls
  end.

(** [str(err)].  An [HttpError] carries its rendered text; tenacity prints
    a [RetryError] as the class name around the representation of the last
    attempt's future, which holds the memory address [future_at] of that
    future (as [0x...]), its state, and the class of its exception. *)
Definition str (future_at : string) (e : exn) : string :=
  match e with
  | HttpError _ _ _ text => text
  | RetryError _ last =>
      "RetryError[<Future at " ++ future_at ++ " state=finished raised "
      ++ class_name last ++ ">]"
  | PyError _ msg => msg
  end.

(** [str(err)] with every [>] and then every [<] replaced by nothing. *)
Definition sanitize (s : string) : string :=
  PyStr.remove_chars ["<"%char] (PyStr.remove_chars [">"%char] s).

Inductive result (A : Type) : Type :=
| Return (a : A)
| Raise (e : exn).
Arguments Return {A} a.
Arguments Raise {A} e.

(** ** The surroundings *)

(** One reply of the service to an upload request: [next_chunk()] returns
    [(status, None)] while the session goes on and [(None, response)] when
    the object is finalized; either request may raise. *)
Inductive reply : Type :=
| Progress (resumable_progress : N)
| Finished (id : string)
| Failure (e : exn).

Inductive event : Type :=
| EvAuthorize
| EvUpdaterStart
| EvUpdaterCancel
| EvListdir (path : string)
| EvCreateDirectory (name : string) (parent : option string) (id : string)
| EvCreateFile (path : string) (parent : option string)
| EvNextChunk (path : string)
| EvSetPermission (id : string)
| EvGetFile (id : string)
| EvRemove (path : string) (removed : bool)
| EvSwitchServiceAccount
| EvSleep (seconds : nat)
| EvDeleteRemote (id : string).

(** Local tree below the upload target, in [listdir] order. *)
Inductive node : Type :=
| File (name : string)
| Dir (name : string) (items : list node).

Definition node_name (n : node) : string :=
  match n with File name => name | Dir name _ => name end.

(** What the job and the configuration fix for one upload. *)
Record Env : Type := mkEnv {
  cancel_at : option nat;        (* clock value from which [listener.is_cancelled] reads true *)
  seed : bool;                   (* listener.seed *)
  new_dir : bool;                (* listener.new_dir *)
  extension_filter : list string;(* listener.extension_filter *)
  listener_name : string;        (* listener.name *)
  sa_number : nat;               (* self.sa_number *)
  IS_TEAM_DRIVE : bool;          (* Config.IS_TEAM_DRIVE *)
  getsize : string -> N;         (* os.path.getsize *)
  get_mime_type : string -> string;
  remove_fails : string -> bool; (* os.remove raises on this path *)
  top_folder_name : string;      (* basename(abspath(listener.name)) *)
  new_folder_id : nat -> string; (* id the service gives a folder created at this clock value *)
  G_DRIVE_BASE_DOWNLOAD_URL : string -> string;
  G_DRIVE_DIR_BASE_DOWNLOAD_URL : string -> string;
  get_id_from_url : string -> string;
  remove_error : string -> exn;  (* what os.remove raises on a path it fails on *)
  get_error : string -> nat -> option exn;
                                 (* what files().get(fileId).execute() raises, if it does, at a clock value *)
  delete_error : string -> option exn;
                                 (* what files().delete(fileId).execute() raises, if it does *)
  future_at : string             (* address of the future of the last attempt, as str() prints it *)
}.

Record World : Type := mkWorld {
  clock : nat;
  trace : list event;
  script : list reply;
  use_sa : bool;
  up_dest : string;
  sa_count : nat;
  status : option N;
  file_processed_bytes : N;
  total_files : nat;
  total_folders : nat
}.

Definition tick (w : World) : World :=
  mkWorld (S (clock w)) (trace w) (script w) (use_sa w) (up_dest w)
          (sa_count w) (status w) (file_processed_bytes w)
          (total_files w) (total_folders w).

Definition log (ev : event) (w : World) : World :=
  mkWorld (S (clock w)) (trace w ++ [ev]) (script w) (use_sa w) (up_dest w)
          (sa_count w) (status w) (file_processed_bytes w)
          (total_files w) (total_folders w).

Definition set_script (rs : list reply) (w : World) : World :=
  mkWorld (clock w) (trace w) rs (use_sa w) (up_dest w)
          (sa_count w) (status w) (file_processed_bytes w)
          (total_files w) (total_folders w).

Definition set_dest (sa : bool) (dest : string) (w : World) : World :=
  mkWorld (clock w) (trace w) (script w) sa dest
          (sa_count w) (status w) (file_processed_bytes w)
          (total_files w) (total_folders w).

Definition set_sa_count (n : nat) (w : World) : World :=
  mkWorld (clock w) (trace w) (script w) (use_sa w) (up_dest w)
          n (status w) (file_processed_bytes w)
          (total_files w) (total_folders w).

Definition set_status (s : option N) (w : World) : World :=
  mkWorld (clock w) (trace w) (script w) (use_sa w) (up_dest w)
          (sa_count w) s (file_processed_bytes w)
          (total_files w) (total_folders w).

Definition set_file_processed_bytes (n : N) (w : World) : World :=
  mkWorld (clock w) (trace w) (script w) (use_sa w) (up_dest w)
          (sa_count w) (status w) n
          (total_files w) (total_folders w).

Definition set_total_files (n : nat) (w : World) : World :=
  mkWorld (clock w) (trace w) (script w) (use_sa w) (up_dest w)
          (sa_count w) (status w) (file_processed_bytes w)
          n (total_folders w).

Definition set_total_folders (n : nat) (w : World) : World :=
  mkWorld (clock w) (trace w) (script w) (use_sa w) (up_dest w)
          (sa_count w) (status w) (file_processed_bytes w)
          (total_files w) n.

(** ** The monad of the transfer code *)

Definition M (A : Type) : Type := World -> option (result A * World).

Definition ret {A} (a : A) : M A := fun w => Some (Return a, w).

Definition raise {A} (e : exn) : M A := fun w => Some (Raise e, w).

Definition bind {A B} (m : M A) (k : A -> M B) : M B :=
  fun w =>
    match m w with
    | None => None
    | Some (Return a, w') => k a w'
    | Some (Raise e, w') => Some (Raise e, w')
    end.

Declare Scope py_scope.
Delimit Scope py_scope with py.
Notation "x <- c1 ;; c2" := (bind c1 (fun x => c2))
  (at level 100, c1 at next level, right associativity) : py_scope.
Notation "c1 ;;; c2" := (bind c1 (fun _ => c2))
  (at level 100, right associativity) : py_scope.
Open Scope py_scope.

(** A call to a collaborator that returns nothing. *)
Definition call (ev : event) : M unit := fun w => Some (Return tt, log ev w).

Definition modify (f : World -> World) : M unit :=
  fun w => Some (Return tt, f w).

Definition gets {A} (f : World -> A) : M A :=
  fun w => Some (Return (f w), w).

(** ** The transfer client, the rotator and the retry policy *)

Record file_args : Type := mkArgs {
  file_path : string;
  file_name : string;
  mime_type : string;
  dest_id : option string;
  ft_delete : list string;
  in_dir : bool
}.

Definition retryable_status : list Z := [500; 502; 503; 504; 429]%Z.

Definition quota_reasons : list string :=
  ["userRateLimitExceeded"; "dailyLimitExceeded"].

(** [reason not in ["userRateLimitExceeded", "dailyLimitExceeded"]],
    negated. *)
Definition reason_is_quota (reason : option string) : bool :=
  match reason with
  | Some r => PyStr.mem r quota_reasons
  | None => false
  end.

(** [err.resp.status in [500, 502, 503, 504, 429] and retries < 10]. *)
Definition retried_in_place (st : Z) (retries : nat) : bool :=
  (existsb (Z.eqb st) retryable_status && (retries <? 10)%nat)%bool.

(** [wait_exponential(multiplier, min, max)] of tenacity, after the attempt
    of the given number. *)
Definition wait_exponential (multiplier min_ max_ attempt_number : nat) : nat :=
  Nat.max min_ (Nat.min (multiplier * 2 ^ (attempt_number - 1)) max_).

(** The loop of tenacity's [@retry] with [retry_if_exception_type(Exception)]
    and the wait of the decorator of [_upload_file]: a raising attempt is
    followed by a sleep and another attempt while attempts remain; the last
    one's exception is wrapped in a [RetryError]. *)
Fixpoint retry_loop {A} (remaining attempt_number : nat) (f : M A) : M A :=
  fun w =>
    match f w with
    | Some (Raise e, w') =>
        match remaining with
        | 0 => Some (Raise (RetryError attempt_number e), w')
        | S k =>
            retry_loop k (S attempt_number) f
              (log (EvSleep (wait_exponential 2 3 6 attempt_number)) w')
        end
    | r => r
    end.

(** [@retry(wait=..., stop=stop_after_attempt(n), retry=...)]. *)
Definition retry {A} (stop_after_attempt : nat) (f : M A) : M A :=
  retry_loop (stop_after_attempt - 1) 1 f.

Section Engine.

Variable env : Env.

(** The flag as it reads at the current clock value. *)
Definition cancelled (w : World) : bool :=
  match cancel_at env with
  | Some t => (t <=? clock w)%nat
  | None => false
  end.

(** One read of [self.listener.is_cancelled]. *)
Definition is_cancelled : M bool :=
  fun w => Some (Return (cancelled w), tick w).

(** Modelled from the spec: the effect of [switch_service_account] of the
    helper class [GoogleDriveHelper], which is not part of the sources.
    Rotation advances to the next identity and raises the count of
    identities used by one. *)
Definition rotate (w : World) : World :=
  log EvSwitchServiceAccount (set_sa_count (S (sa_count w)) w).

(** Modelled from the spec: the call [self.switch_service_account()] of
    the helper class, which reports success once the guard on the count
    has let it through. *)
Definition switch_service_account : M unit :=
  fun w => Some (Return tt, rotate w).

(** Modelled from the spec: [set_permission] of the helper class, the
    grant of read access on an object, which returns nothing. *)
Definition set_permission (id : string) : M unit := call (EvSetPermission id).

(** [self.service.files().get(fileId=id, ...).execute().get("id")]: the
    service answers with the object asked for, or the request raises. *)
Definition get_file (id : string) : M string :=
  fun w =>
    match get_error env id (clock w) with
    | Some e => Some (Raise e, log (EvGetFile id) w)
    | None => Some (Return id, log (EvGetFile id) w)
    end.

(** Modelled from the spec: [create_directory] of the helper class; the
    creation of an object returns its identifier. *)
Definition create_directory (name : string) (parent : option string)
  : M string :=
  fun w =>
    let id := new_folder_id env (clock w) in
    Some (Return id, log (EvCreateDirectory name parent id) w).

(** [os.remove(path)]. *)
Definition remove (path : string) : M unit :=
  fun w =>
    if remove_fails env path
    then Some (Raise (remove_error env path), log (EvRemove path false) w)
    else Some (Return tt, log (EvRemove path true) w).

(** [with contextlib.suppress(Exception): m]. *)
Definition suppress (m : M unit) : M unit :=
  fun w =>
    match m w with
    | Some (Raise _, w') => Some (Return tt, w')
    | r => r
    end.

(** [response["id"]]. *)
Definition subscript_id (response : option string) : M string :=
  match response with
  | Some id => ret id
  | None => raise (PyError "TypeError" "'NoneType' object is not subscriptable")
  end.

Section Body.

(** The decorated method, as the body calls it after a rotation. *)
Variable self : file_args -> M (option string).

Variable a : file_args.

(** Lines 257 to 274: what follows the chunk loop. *)
Definition finish (response : option string) : M (option string) :=
  c <- is_cancelled ;;
  if c then ret None
  else
    (if (negb (seed env) || new_dir env
         || PyStr.mem (file_path a) (ft_delete a))%bool
     then suppress (remove (file_path a))
     else ret tt) ;;;
    modify (set_file_processed_bytes 0%N) ;;;
    (if negb (IS_TEAM_DRIVE env)
     then (id <- subscript_id response ;; set_permission id)
     else ret tt) ;;;
    if negb (in_dir a)
    then
      id <- subscript_id response ;;
      id' <- get_file id ;;
      ret (Some (G_DRIVE_BASE_DOWNLOAD_URL env id'))
    else ret None.

(** The [except HttpError] clause once the transient retry does not apply
    and the response is JSON. *)
Definition on_json_error (err : exn) (content : payload) : M (option string) :=
  match content with
  | BadPayload cls msg => raise (PyError cls msg)
  | ErrorPayload reason =>
      if negb (reason_is_quota reason) then raise err
      else
        sa <- gets use_sa ;;
        if sa then
          used <- gets sa_count ;;
          if (sa_number env <=? used)%nat then raise err
          else
            c <- is_cancelled ;;
            if c then ret None
            else switch_service_account ;;; self a
        else raise err
  end.

(** The [while response is None and not self.listener.is_cancelled] loop,
    by recursion on the replies still to come ([rs] is [script w]). *)
Fixpoint chunk_loop (rs : list reply) (retries : nat) : M (option string) :=
  c <- is_cancelled ;;
  if c then finish None
  else
    match rs with
    | [] => fun _ => None
    | r :: rest =>
        modify (fun w => log (EvNextChunk (file_path a)) (set_script rest w)) ;;;
        match r with
        | Progress p =>
            modify (set_status (Some p)) ;;; chunk_loop rest retries
        | Finished id =>
            modify (set_status None) ;;; finish (Some id)
        | Failure ((HttpError st ct content _) as err) =>
            if retried_in_place st retries then chunk_loop rest (S retries)
            else if PyStr.startswith ct "application/json"
            then on_json_error err content
            else chunk_loop rest retries
        | Failure err => raise err
        end
    end.

(** The non-resumable [create(...).execute()] of a zero-length file. *)
Definition execute_create : M string :=
  fun w =>
    match script w with
    | [] => None
    | r :: rest =>
        let w' := log (EvCreateFile (file_path a) (dest_id a)) (set_script rest w) in
        match r with
        | Finished id => Some (Return id, w')
        | Failure e => Some (Raise e, w')
        | Progress _ => None
        end
    end.

(** The body of [_upload_file], one attempt. *)
Definition upload_file_body : M (option string) :=
  if (getsize env (file_path a) =? 0)%N
  then
    id <- execute_create ;;
    (if negb (IS_TEAM_DRIVE env) then set_permission id else ret tt) ;;;
    id' <- get_file id ;;
    ret (Some (G_DRIVE_BASE_DOWNLOAD_URL env id'))
  else fun w => chunk_loop (script w) 0 w.

End Body.

(** [_upload_file] with its decorator; [fuel] bounds the depth of the
    re-entries after rotations. *)
Fixpoint _upload_file (fuel : nat) (a : file_args) : M (option string) :=
  match fuel with
  | 0 => fun _ => None
  | S fuel' => retry 3 (upload_file_body (_upload_file fuel') a)
  end.

End Engine.

(** ** The directory walker *)

Section Walker.

Variable env : Env.

(** The recursive call of [_upload_dir] on a sub-directory (its path, its
    listing and the remote folder made for it) and the decorated
    [_upload_file]. *)
Variable self_dir : string -> list node -> option string -> M (option string).
Variable upload_file : file_args -> M (option string).

Variables (input_directory : string) (dest_id : option string).
Variables (unwanted_files ft_delete : list string).

(** The test of the [elif]: the file is to be transferred. *)
Definition wanted (current_file_name item : string) : bool :=
  (negb (PyStr.mem current_file_name unwanted_files)
   && negb (PyStr.endswith_any (PyStr.lower item) (extension_filter env)))%bool.

(** One turn of the [for item in list_dirs] loop up to the cancellation
    check; the value returned is the new [new_id]. *)
Definition upload_dir_entry (item : node) : M (option string) :=
  let current_file_name := PyStr.join input_directory (node_name item) in
  match item with
  | Dir name items =>
      current_dir_id <- create_directory env name dest_id ;;
      new_id <- self_dir current_file_name items (Some current_dir_id) ;;
      modify (fun w => set_total_folders (total_folders w + 1) w) ;;;
      ret new_id
  | File name =>
      if wanted current_file_name name
      then
        let mime_type := get_mime_type env current_file_name in
        let file_name := PyStr.last_segment current_file_name in
        _ <- upload_file
               (mkArgs current_file_name file_name mime_type dest_id
                       ft_delete true) ;;
        modify (fun w => set_total_files (total_files w + 1) w) ;;;
        ret dest_id
      else
        (if (negb (seed env) || new_dir env)%bool
         then remove env current_file_name
         else ret tt) ;;;
        ret (Some "filter")
  end.

Fixpoint upload_dir_loop (list_dirs : list node) (new_id : option string)
  : M (option string) :=
  match list_dirs with
  | [] => ret new_id
  | item :: rest =>
      new_id' <- upload_dir_entry item ;;
      c <- is_cancelled env ;;
      if c then ret new_id' else upload_dir_loop rest new_id'
  end.

End Walker.

(** [_upload_dir]; [list_dirs] is what [listdir(input_directory)] returns,
    with the listing of each sub-directory inside it. *)
Fixpoint _upload_dir (env : Env) (fuel : nat) (input_directory : string)
  (list_dirs : list node) (dest_id : option string)
  (unwanted_files ft_delete : list string) : M (option string) :=
  match fuel with
  | 0 => fun _ => None
  | S fuel' =>
      call (EvListdir input_directory) ;;;
      match list_dirs with
      | [] => ret dest_id
      | _ =>
          upload_dir_loop env
            (fun p items d => _upload_dir env fuel' p items d unwanted_files ft_delete)
            (_upload_file env fuel')
            input_directory dest_id unwanted_files ft_delete list_dirs None
      end
  end.

(** ** The orchestrator *)

Inductive callback : Type :=
| OnUploadError (message : string)
| OnUploadComplete (link : string) (files folders : nat) (mime_type : string)
                   (dir_id : string).

(** The upload job: the transfer state, the calls made to the owning
    listener and [self._is_errored]. *)
Record Job : Type := mkJob {
  world : World;
  callbacks : list callback;
  is_errored : bool
}.

(** The local variables of [upload] that its [finally] clause reads. *)
Record locals : Type := mkLocals {
  link : option string;
  l_mime_type : string;
  l_dir_id : option string
}.

(** [user_setting]; the token path it also sets belongs to credential
    loading and is not kept. *)
Definition user_setting (w : World) : World :=
  let d := up_dest w in
  if PyStr.startswith d "mtp:" then set_dest false (PyStr.replace_prefix "mtp:" d) w
  else if PyStr.startswith d "tp:" then set_dest false (PyStr.replace_prefix "tp:" d) w
  else if PyStr.startswith d "sa:" then set_dest true (PyStr.replace_prefix "sa:" d) w
  else w.

Section Orchestrator.

Variable env : Env.
Variable fuel : nat.

(** [target] is what is found at [path]: [os.path.isfile] holds of a [File]. *)
Variables (target : node) (path : string).
Variables (unwanted_files ft_delete : list string).

(** Lines 46 to 49. *)
Definition upload_begin (w : World) : World :=
  log EvUpdaterStart (log EvAuthorize (user_setting w)).

(** The [try] block.  Both of its [return] statements and its normal end
    lead to the [finally] clause with the locals bound so far. *)
Definition upload_try : M locals :=
  match target with
  | File _ =>
      if PyStr.endswith_any (PyStr.lower path) (extension_filter env)
      then raise (PyError "Exception"
                    "This file extension is excluded by extension filter!")
      else
        let mime_type := get_mime_type env path in
        dest <- gets up_dest ;;
        link <- _upload_file env fuel
                  (mkArgs path (listener_name env) mime_type (Some dest)
                          ft_delete false) ;;
        c <- is_cancelled env ;;
        if c then ret (mkLocals link mime_type None)
        else
          match link with
          | None => raise (PyError "Exception" "Upload has been manually cancelled")
          | Some _ => ret (mkLocals link mime_type None)
          end
  | Dir _ items =>
      let mime_type := "Folder" in
      dest <- gets up_dest ;;
      dir_id <- create_directory env (top_folder_name env) (Some dest) ;;
      result <- _upload_dir env fuel path items (Some dir_id)
                  unwanted_files ft_delete ;;
      match result with
      | None => raise (PyError "Exception" "Upload has been manually cancelled!")
      | Some _ =>
          let link := G_DRIVE_DIR_BASE_DOWNLOAD_URL env dir_id in
          c <- is_cancelled env ;;
          ret (mkLocals (Some link) mime_type (Some dir_id))
      end
  end.

(** The [except Exception as err] clause. *)
Definition upload_except (r : result locals) (w : World) : Job :=
  match r with
  | Return _ => mkJob w [] false
  | Raise err =>
      let err :=
        match err with
        | RetryError _ last_attempt => last_attempt
        | _ => err
        end in
      let err := sanitize (str (future_at env) err) in
      mkJob (tick w) [OnUploadError err] true
  end.

(** The [try] block under its [except] clause. *)
Definition upload_guarded (w : World) : option (result locals * Job) :=
  match upload_try (upload_begin w) with
  | None => None
  | Some (r, w1) => Some (r, upload_except r w1)
  end.

Definition unbound (name : string) : exn := PyError "UnboundLocalError" name.

(** The [finally] clause.  What it raises escapes [upload]; the deletion of
    the remote folder is not guarded. *)
Definition upload_finally (r : result locals) (j : Job) : result unit * Job :=
  let w := log EvUpdaterCancel (world j) in
  let c := cancelled env w in
  let w := tick w in
  if (c && negb (is_errored j))%bool then
    match r with
    | Return l =>
        if String.eqb (l_mime_type l) "Folder" then
          match l_dir_id l with
          | Some dir_id =>
              (match delete_error env dir_id with
               | Some e => Raise e
               | None => Return tt
               end,
               mkJob (log (EvDeleteRemote dir_id) w) (callbacks j) (is_errored j))
          | None => (Raise (unbound "dir_id"), mkJob w (callbacks j) (is_errored j))
          end
        else (Return tt, mkJob w (callbacks j) (is_errored j))
    | Raise _ => (Raise (unbound "mime_type"), mkJob w (callbacks j) (is_errored j))
    end
  else if is_errored j then (Return tt, mkJob w (callbacks j) (is_errored j))
  else
    match r with
    | Return l =>
        match link l with
        | Some lk =>
            (Return tt,
             mkJob (tick w)
                   (callbacks j ++
                    [OnUploadComplete lk (total_files w) (total_folders w)
                                      (l_mime_type l) (get_id_from_url env lk)])
                   (is_errored j))
        | None =>
            (Raise (PyError "TypeError" "link"), mkJob w (callbacks j) (is_errored j))
        end
    | Raise _ => (Raise (unbound "link"), mkJob w (callbacks j) (is_errored j))
    end.

(** [upload(unwanted_files, ft_delete)]. *)
Definition upload (w : World) : option (result unit * Job) :=
  match upload_guarded w with
  | None => None
  | Some (r, j) => Some (upload_finally r j)
  end.

End Orchestrator.

(** The world in which the reply to a chunk request is handled: the loop
    condition has read the flag and the request has consumed its reply. *)
Definition after_request (a : file_args) (rest : list reply) (w : World) : World :=
  log (EvNextChunk (file_path a)) (set_script rest (tick w)).

(** The two job counters are the same in both worlds. *)
Definition counters_kept (w w' : World) : Prop :=
  total_files w' = total_files w /\ total_folders w' = total_folders w.

(** Every run of [m] that has a result keeps the job counters. *)
Definition keeps {A} (m : M A) : Prop :=
  forall w r w', m w = Some (r, w') -> counters_kept w w'.

(** Every result of [m1] is a result of [m2]: [m2] may only have results
    where [m1] has none. *)
Definition refines {A} (m1 m2 : M A) : Prop :=
  forall w x, m1 w = Some x -> m2 w = Some x.

(** The files below [dir] that pass the walker's filter, and the
    sub-directories, counted over the whole tree. *)
Fixpoint files_in (env : Env) (unwanted_files : list string) (dir : string)
  (n : node) : nat :=
  match n with
  | File name =>
      if wanted env unwanted_files (PyStr.join dir name) name then 1 else 0
  | Dir name items =>
      list_sum (map (files_in env unwanted_files (PyStr.join dir name)) items)
  end.

Fixpoint folders_in (n : node) : nat :=
  match n with
  | File _ => 0
  | Dir _ items => 1 + list_sum (map folders_in items)
  end.

(** What a run returned or raised, and the calls it made. *)
Definition summary {A} (run : option (result A * World))
  : option (result A * list event) :=
  match run with
  | Some (r, w) => Some (r, trace w)
  | None => None
  end.

(** ** Sample surroundings for concrete runs *)

Definition sample_env (cancel : option nat) (seeding : bool) : Env :=
  mkEnv cancel seeding false [".zip"] "a.txt" 2 false
        (fun p => if String.eqb p "empty.txt" then 0%N else 250%N)
        (fun _ => "text/plain") (fun _ => false) "top"
        (fun _ => "folder1")
        (fun id => "file-base/" ++ id)
        (fun id => "folder-base/" ++ id)
        (fun l => l)
        (fun p => PyError "FileNotFoundError"
                    ("[Errno 2] No such file or directory: '" ++ p ++ "'"))
        (fun _ _ => None) (fun _ => None) "0x7f3a5c0d2b50".

Definition sample_world (pool : bool) (rs : list reply) : World :=
  mkWorld 0 [] rs pool "root" 0 None 0%N 0 0.

Definition sample_args (p : string) (nested : bool) : file_args :=
  mkArgs p p "text/plain" (Some "root") [] nested.

Definition json : string := "application/json; charset=UTF-8".

Definition quota_403 : exn :=
  HttpError 403 json (ErrorPayload (Some "userRateLimitExceeded")) "quota".

Definition quota_429 : exn :=
  HttpError 429 json (ErrorPayload (Some "userRateLimitExceeded")) "quota".

Definition backend_503 : exn :=
  HttpError 503 json (ErrorPayload (Some "backendError")) "backend error".

Definition forbidden_403 (text : string) : exn :=
  HttpError 403 json (ErrorPayload (Some "forbidden")) text.

Definition html_403 : exn :=
  HttpError 403 "text/html" (BadPayload "SyntaxError" "invalid syntax") "forbidden".

(** ** Notions for the invariants of a whole upload *)

(** The calls the walker and the transfer client make, other than the
    rotation of the identity. *)
Definition plain_event (ev : event) : bool :=
  match ev with
  | EvListdir _ | EvCreateDirectory _ _ _ | EvCreateFile _ _ | EvNextChunk _
  | EvSetPermission _ | EvGetFile _ | EvRemove _ _ | EvSleep _ => true
  | _ => false
  end.

Definition is_switch (ev : event) : bool :=
  match ev with
  | EvSwitchServiceAccount => true
  | _ => false
  end.

Definition transfer_event (ev : event) : bool :=
  (plain_event ev || is_switch ev)%bool.

(** The number of rotations among the calls [evs]. *)
Definition switches (evs : list event) : nat :=
  List.length (filter is_switch evs).

Definition is_next_chunk (ev : event) : bool :=
  match ev with
  | EvNextChunk _ => true
  | _ => false
  end.

Definition is_remove (ev : event) : bool :=
  match ev with
  | EvRemove _ _ => true
  | _ => false
  end.

(** Every run of [m] that has a result relates its two worlds by [R]. *)
Definition respects {A} (R : World -> World -> Prop) (m : M A) : Prop :=
  forall w r w', m w = Some (r, w') -> R w w'.

(** What the walker and the transfer client keep of the world: the
    identity mode and the destination; the clock and the log only grow,
    the log by calls of their own; the count of identities used grows by
    the rotations logged, none of them in single-identity mode, and stays
    within the pool once it is within it. *)
Definition steady (env : Env) (w w' : World) : Prop :=
  use_sa w' = use_sa w
  /\ up_dest w' = up_dest w
  /\ clock w <= clock w'
  /\ exists evs,
       trace w' = (trace w ++ evs)%list
       /\ forallb transfer_event evs = true
       /\ sa_count w' = sa_count w + switches evs
       /\ (use_sa w = false -> switches evs = 0)
       /\ (sa_count w <= sa_number env -> sa_count w' <= sa_number env).

(** No character of [s] is an angle bracket. *)
Fixpoint bracket_free (s : string) : bool :=
  match s with
  | EmptyString => true
  | String c s' =>
      (negb (Ascii.eqb c "<"%char) && negb (Ascii.eqb c ">"%char)
       && bracket_free s')%bool
  end.


(** A call that is neither a chunk request nor a local removal. *)
Definition no_chunk_no_remove (ev : event) : bool :=
  (negb (is_next_chunk ev) && negb (is_remove ev))%bool.

(** The calls that end a session whose last chunk the service has
    finalized as object [id]: the local removal if the policy asks for it,
    the grant of access unless the drive is a team drive, the look-up of
    the object for a top-level file. *)
Definition closing_calls (env : Env) (a : file_args) (id : string)
  : list event :=
  ((if (negb (seed env) || new_dir env
        || PyStr.mem (file_path a) (ft_delete a))%bool
    then [EvRemove (file_path a) (negb (remove_fails env (file_path a)))]
    else [])
   ++ (if IS_TEAM_DRIVE env then [] else [EvSetPermission id])
   ++ (if in_dir a then [] else [EvGetFile id]))%list.

(** Some character of [s] is an upper-case ASCII letter. *)
Fixpoint has_upper (s : string) : bool :=
  match s with
  | EmptyString => false
  | String c s' =>
      (negb (Ascii.eqb (PyStr.lower_ascii c) c) || has_upper s')%bool
  end.

(** [s] contains a slash. *)
Fixpoint has_slash (s : string) : bool :=
  match s with
  | EmptyString => false
  | String c s' => (Ascii.eqb c PyStr.slash || has_slash s')%bool
  end.

(** Surroundings in which the service refuses to delete any remote
    object. *)
Definition rollback_refused : exn :=
  HttpError 403 json (ErrorPayload (Some "insufficientFilePermissions"))
            "insufficient permissions".

Definition rollback_refused_env (cancel : option nat) : Env :=
  mkEnv cancel false false [".zip"] "a.txt" 2 false
        (fun p => if String.eqb p "empty.txt" then 0%N else 250%N)
        (fun _ => "text/plain") (fun _ => false) "top"
        (fun _ => "folder1")
        (fun id => "file-base/" ++ id)
        (fun id => "folder-base/" ++ id)
        (fun l => l)
        (fun p => PyError "FileNotFoundError"
                    ("[Errno 2] No such file or directory: '" ++ p ++ "'"))
        (fun _ _ => None) (fun _ => Some rollback_refused) "0x7f3a5c0d2b50".

(** Surroundings in which the look-up of any uploaded object fails. *)
Definition lookup_failed : exn :=
  HttpError 500 "text/html" (BadPayload "SyntaxError" "invalid syntax")
            "internal error".

Definition lookup_failed_env : Env :=
  mkEnv None false false [".zip"] "a.txt" 2 false
        (fun p => if String.eqb p "empty.txt" then 0%N else 250%N)
        (fun _ => "text/plain") (fun _ => false) "top"
        (fun _ => "folder1")
        (fun id => "file-base/" ++ id)
        (fun id => "folder-base/" ++ id)
        (fun l => l)
        (fun p => PyError "FileNotFoundError"
                    ("[Errno 2] No such file or directory: '" ++ p ++ "'"))
        (fun _ _ => Some lookup_failed) (fun _ => None) "0x7f3a5c0d2b50".

(** * Properties *)

(** ** The cancellation flag *)

Lemma cancelled_tick env w :
  cancelled env w = true -> cancelled env (tick w) = true.
Proof.
  unfold cancelled; destruct (cancel_at env) as [t|]; simpl; [|discriminate].
  intros H; apply Nat.leb_le in H; apply Nat.leb_le; lia.
Qed.

Lemma cancelled_log env ev w :
  cancelled env w = true -> cancelled env (log ev w) = true.
Proof. exact (cancelled_tick env w). Qed.

Lemma cancelled_never env w : cancel_at env = None -> cancelled env w = false.
Proof. unfold cancelled; intros ->; reflexivity. Qed.

(** ** The chunk loop, one request at a time *)

Lemma chunk_loop_cancelled env self a rs retries w :
  cancelled env w = true ->
  chunk_loop env self a rs retries w = Some (Return None, tick (tick w)).
Proof.
  intros H.
  assert (H' : cancelled env (tick w) = true) by (apply cancelled_tick; exact H).
  destruct rs; simpl; unfold bind, is_cancelled, finish, bind, is_cancelled;
    rewrite H, H'; reflexivity.
Qed.

Lemma chunk_loop_progress env self a p rest retries w :
  cancelled env w = false ->
  chunk_loop env self a (Progress p :: rest) retries w
  = chunk_loop env self a rest retries
      (set_status (Some p) (after_request a rest w)).
Proof.
  intros H; simpl; unfold bind at 1, is_cancelled at 1; rewrite H; reflexivity.
Qed.

Lemma chunk_loop_finished env self a id rest retries w :
  cancelled env w = false ->
  chunk_loop env self a (Finished id :: rest) retries w
  = finish env a (Some id) (set_status None (after_request a rest w)).
Proof.
  intros H; simpl; unfold bind at 1, is_cancelled at 1; rewrite H; reflexivity.
Qed.

Lemma chunk_loop_http_error env self a st ct content text rest retries w :
  cancelled env w = false ->
  chunk_loop env self a (Failure (HttpError st ct content text) :: rest) retries w
  = (if retried_in_place st retries then chunk_loop env self a rest (S retries)
     else if PyStr.startswith ct "application/json"
          then on_json_error env self a (HttpError st ct content text) content
          else chunk_loop env self a rest retries)
      (after_request a rest w).
Proof.
  intros H; simpl; unfold bind at 1, is_cancelled at 1; rewrite H; reflexivity.
Qed.

Lemma chunk_loop_other_error env self a e rest retries w :
  cancelled env w = false ->
  (forall st ct content text, e <> HttpError st ct content text) ->
  chunk_loop env self a (Failure e :: rest) retries w
  = Some (Raise e, after_request a rest w).
Proof.
  intros H Hne; simpl; unfold bind at 1, is_cancelled at 1; rewrite H.
  destruct e; [exfalso; eapply Hne; reflexivity | reflexivity | reflexivity].
Qed.

Lemma retried_in_place_bound st retries :
  10 <= retries -> retried_in_place st retries = false.
Proof.
  intros H; unfold retried_in_place.
  assert (E : (retries <? 10)%nat = false) by (apply Nat.ltb_ge; exact H).
  rewrite E; apply andb_false_r.
Qed.

Lemma retried_in_place_transient st retries :
  In st retryable_status -> retries < 10 -> retried_in_place st retries = true.
Proof.
  intros Hin Hlt; unfold retried_in_place.
  apply andb_true_iff; split.
  - apply existsb_exists; exists st; split; [exact Hin | apply Z.eqb_refl].
  - apply Nat.ltb_lt; exact Hlt.
Qed.

(** A failure whose body is not JSON and that is not retried as a
    transient status leaves the [except] clause without raising: the loop
    goes on with the next request of the same session, the retry counter
    unchanged. *)
Lemma chunk_loop_non_json_error env self a st ct content text rest retries w :
  cancelled env w = false ->
  retried_in_place st retries = false ->
  PyStr.startswith ct "application/json" = false ->
  chunk_loop env self a (Failure (HttpError st ct content text) :: rest) retries w
  = chunk_loop env self a rest retries (after_request a rest w).
Proof.
  intros Hc Hr Hj; rewrite chunk_loop_http_error by exact Hc.
  rewrite Hr, Hj; reflexivity.
Qed.

(** A JSON failure that is not retried in place and whose reason is not a
    quota reason is raised again as it is. *)
Lemma chunk_loop_json_other_reason env self a st ct reason text rest retries w :
  cancelled env w = false ->
  retried_in_place st retries = false ->
  PyStr.startswith ct "application/json" = true ->
  reason_is_quota reason = false ->
  chunk_loop env self a
    (Failure (HttpError st ct (ErrorPayload reason) text) :: rest) retries w
  = Some (Raise (HttpError st ct (ErrorPayload reason) text),
          after_request a rest w).
Proof.
  intros Hc Hr Hj Hq; rewrite chunk_loop_http_error by exact Hc.
  rewrite Hr, Hj; unfold on_json_error; rewrite Hq; reflexivity.
Qed.

(** ** Quota failures and rotation *)

(** C1 (as amended).  A chunk request that fails with a JSON error response
    whose reason is "userRateLimitExceeded" or "dailyLimitExceeded", and
    that is not retried in place as a transient status, is handled by
    identity mode: with a single identity the error is raised out of the
    chunk loop to the retry policy; with the pool, when identities remain
    and the job is not cancelled, the identity is rotated and the result is
    that of calling the decorated [_upload_file] afresh on the same
    arguments, that is the whole file again. *)
Theorem C1_quota_failure_dispatch :
  forall env fuel a rest retries w st ct reason text,
    cancelled env w = false ->
    retried_in_place st retries = false ->
    PyStr.startswith ct "application/json" = true ->
    reason_is_quota reason = true ->
    (use_sa w = false ->
     chunk_loop env (_upload_file env fuel) a
       (Failure (HttpError st ct (ErrorPayload reason) text) :: rest) retries w
     = Some (Raise (HttpError st ct (ErrorPayload reason) text),
             after_request a rest w))
    /\
    (use_sa w = true ->
     sa_count w < sa_number env ->
     cancelled env (after_request a rest w) = false ->
     chunk_loop env (_upload_file env fuel) a
       (Failure (HttpError st ct (ErrorPayload reason) text) :: rest) retries w
     = _upload_file env fuel a (rotate (tick (after_request a rest w)))).
Proof.
  intros env fuel a rest retries w st ct reason text Hc Hr Hj Hq.
  rewrite chunk_loop_http_error by exact Hc.
  rewrite Hr, Hj; unfold on_json_error; rewrite Hq.
  change (negb true) with false; cbv beta iota.
  split.
  - intros Hsa. unfold bind, gets; cbv beta iota.
    change (use_sa (after_request a rest w)) with (use_sa w).
    rewrite Hsa; reflexivity.
  - intros Hsa Hlt Hc1. unfold bind, gets, is_cancelled, switch_service_account.
    cbv beta iota.
    change (use_sa (after_request a rest w)) with (use_sa w).
    rewrite Hsa; cbv beta iota.
    change (sa_count (after_request a rest w)) with (sa_count w).
    assert (E : (sa_number env <=? sa_count w)%nat = false)
      by (apply Nat.leb_gt; exact Hlt).
    rewrite E; cbv beta iota; rewrite Hc1; reflexivity.
Qed.

Lemma C1_quota_failure_dispatch_witness :
  chunk_loop (sample_env None false) (_upload_file (sample_env None false) 1)
    (sample_args "a.txt" false) [Failure quota_403; Finished "f1"] 0
    (sample_world false [Failure quota_403; Finished "f1"])
  = Some (Raise quota_403,
          after_request (sample_args "a.txt" false) [Finished "f1"]
            (sample_world false [Failure quota_403; Finished "f1"]))
  /\
  chunk_loop (sample_env None false) (_upload_file (sample_env None false) 1)
    (sample_args "a.txt" false) [Failure quota_403; Finished "f1"] 0
    (sample_world true [Failure quota_403; Finished "f1"])
  = _upload_file (sample_env None false) 1 (sample_args "a.txt" false)
      (rotate (tick (after_request (sample_args "a.txt" false) [Finished "f1"]
                       (sample_world true [Failure quota_403; Finished "f1"])))).
Proof.
  split.
  - apply (proj1 (C1_quota_failure_dispatch (sample_env None false) 1
                    (sample_args "a.txt" false) [Finished "f1"] 0
                    (sample_world false [Failure quota_403; Finished "f1"])
                    403%Z json (Some "userRateLimitExceeded") "quota"
                    eq_refl eq_refl eq_refl eq_refl)).
    reflexivity.
  - apply (proj2 (C1_quota_failure_dispatch (sample_env None false) 1
                    (sample_args "a.txt" false) [Finished "f1"] 0
                    (sample_world true [Failure quota_403; Finished "f1"])
                    403%Z json (Some "userRateLimitExceeded") "quota"
                    eq_refl eq_refl eq_refl eq_refl)).
    + reflexivity.
    + simpl; lia.
    + reflexivity.
Defined.

(** C1 (as stated) fails on a quota reason that comes with status 429: in
    single-identity mode the failure is retried inside the chunk loop
    instead of being raised, and the upload goes on to finish. *)
Lemma C1_counterexample :
  use_sa (sample_world false [Failure quota_429; Finished "f1"]) = false
  /\ reason_is_quota (Some "userRateLimitExceeded") = true
  /\ summary
       (upload_file_body (sample_env None false)
          (_upload_file (sample_env None false) 1)
          (sample_args "a.txt" false)
          (sample_world false [Failure quota_429; Finished "f1"]))
     = Some (Return (Some "file-base/f1"),
             [EvNextChunk "a.txt"; EvNextChunk "a.txt"; EvRemove "a.txt" true;
              EvSetPermission "f1"; EvGetFile "f1"]).
Proof. repeat split; vm_compute; reflexivity. Qed.

(** C4.  In pool mode, a quota failure met when the count of identities
    used has reached the number of identities raises the very error the
    request failed with, without rotating; and once as many rotations have
    been made as there are identities, that is the case. *)
Theorem C4_rotation_exhausted :
  forall env self a rest retries w st ct reason text,
    cancelled env w = false ->
    retried_in_place st retries = false ->
    PyStr.startswith ct "application/json" = true ->
    reason_is_quota reason = true ->
    use_sa w = true ->
    sa_number env <= sa_count w ->
    chunk_loop env self a
      (Failure (HttpError st ct (ErrorPayload reason) text) :: rest) retries w
    = Some (Raise (HttpError st ct (ErrorPayload reason) text),
            after_request a rest w)
    /\ sa_count (after_request a rest w) = sa_count w
    /\ forall w0, sa_number env <= sa_count (Nat.iter (sa_number env) rotate w0).
Proof.
  intros env self a rest retries w st ct reason text Hc Hr Hj Hq Hsa Hle.
  split; [|split].
  - rewrite chunk_loop_http_error by exact Hc.
    rewrite Hr, Hj; unfold on_json_error; rewrite Hq.
    change (negb true) with false; cbv beta iota.
    unfold bind, gets; cbv beta iota.
    change (use_sa (after_request a rest w)) with (use_sa w).
    rewrite Hsa; cbv beta iota.
    change (sa_count (after_request a rest w)) with (sa_count w).
    assert (E : (sa_number env <=? sa_count w)%nat = true)
      by (apply Nat.leb_le; exact Hle).
    rewrite E; reflexivity.
  - reflexivity.
  - intros w0.
    assert (G : forall n, sa_count (Nat.iter n rotate w0) = n + sa_count w0).
    { induction n as [|n IH]; [reflexivity|].
      simpl Nat.iter; unfold rotate at 1; simpl; rewrite IH; reflexivity. }
    rewrite G; lia.
Qed.

Lemma C4_rotation_exhausted_witness :
  chunk_loop (sample_env None false) (_upload_file (sample_env None false) 1)
    (sample_args "a.txt" false) [Failure quota_403; Finished "f1"] 0
    (set_sa_count 2 (sample_world true [Failure quota_403; Finished "f1"]))
  = Some (Raise quota_403,
          after_request (sample_args "a.txt" false) [Finished "f1"]
            (set_sa_count 2 (sample_world true [Failure quota_403; Finished "f1"]))).
Proof.
  apply (C4_rotation_exhausted (sample_env None false)
           (_upload_file (sample_env None false) 1)
           (sample_args "a.txt" false) [Finished "f1"] 0
           (set_sa_count 2 (sample_world true [Failure quota_403; Finished "f1"]))
           403%Z json (Some "userRateLimitExceeded") "quota"
           eq_refl eq_refl eq_refl eq_refl eq_refl).
  simpl; lia.
Defined.

(** ** Failures retried inside the session *)

(** C8 (as amended).  A chunk request failing with a status among 500, 502,
    503, 504 and 429 while the retry counter is below ten is requested
    again in the same session: the counter goes up by one and the progress
    of the session is as it was.  The counter belongs to the session, not
    to the chunk: a chunk that succeeds leaves it as it is. *)
Theorem C8_transient_retry_in_session :
  forall env self a rest retries w st ct content text p,
    cancelled env w = false ->
    In st retryable_status ->
    retries < 10 ->
    chunk_loop env self a (Failure (HttpError st ct content text) :: rest) retries w
    = chunk_loop env self a rest (S retries) (after_request a rest w)
    /\ status (after_request a rest w) = status w
    /\ chunk_loop env self a (Progress p :: rest) retries w
       = chunk_loop env self a rest retries
           (set_status (Some p) (after_request a rest w)).
Proof.
  intros env self a rest retries w st ct content text p Hc Hin Hlt.
  split; [|split].
  - rewrite chunk_loop_http_error by exact Hc.
    rewrite (retried_in_place_transient st retries Hin Hlt); reflexivity.
  - reflexivity.
  - apply chunk_loop_progress; exact Hc.
Qed.

Lemma C8_transient_retry_in_session_witness :
  chunk_loop (sample_env None false) (_upload_file (sample_env None false) 1)
    (sample_args "a.txt" false) [Failure backend_503; Finished "f1"] 0
    (sample_world false [Failure backend_503; Finished "f1"])
  = chunk_loop (sample_env None false) (_upload_file (sample_env None false) 1)
      (sample_args "a.txt" false) [Finished "f1"] 1
      (after_request (sample_args "a.txt" false) [Finished "f1"]
         (sample_world false [Failure backend_503; Finished "f1"])).
Proof.
  apply (C8_transient_retry_in_session (sample_env None false)
           (_upload_file (sample_env None false) 1)
           (sample_args "a.txt" false) [Finished "f1"] 0
           (sample_world false [Failure backend_503; Finished "f1"])
           503%Z json (ErrorPayload (Some "backendError")) "backend error" 0%N
           eq_refl).
  - simpl; tauto.
  - lia.
Defined.

(** C8 (as stated) fails: after ten transient failures on the first chunk,
    the first transient failure of the second chunk is not retried; it is
    raised, leaving the rest of the session unrequested. *)
Lemma C8_counterexample :
  match
    upload_file_body (sample_env None false)
      (_upload_file (sample_env None false) 1) (sample_args "a.txt" false)
      (sample_world false
         (repeat (Failure backend_503) 10
          ++ [Progress 100; Failure backend_503; Finished "f1"]))
  with
  | Some (r, w) =>
      r = Raise backend_503 /\ status w = Some 100%N
      /\ script w = [Finished "f1"]
  | None => False
  end.
Proof. vm_compute; repeat split. Qed.

(** ** Failures the chunk loop does not recognise *)

(** C2 at a failing input.  Two chunk requests fail with status 403 and an
    HTML body; neither is raised: the loop requests again each time and the
    upload returns a link, the retry policy never having been reached. *)
Theorem C2_non_json_failure_retried :
  summary
    (_upload_file (sample_env None false) 1 (sample_args "a.txt" false)
       (sample_world false [Failure html_403; Failure html_403; Finished "f1"]))
  = Some (Return (Some "file-base/f1"),
          [EvNextChunk "a.txt"; EvNextChunk "a.txt"; EvNextChunk "a.txt";
           EvRemove "a.txt" true; EvSetPermission "f1"; EvGetFile "f1"]).
Proof. vm_compute; reflexivity. Qed.

(** ** The retry policy *)

Lemma retry_first_attempt_returns {A} (f : M A) w v w1 :
  f w = Some (Return v, w1) -> retry 3 f w = Some (Return v, w1).
Proof. intros H; unfold retry; simpl; rewrite H; reflexivity. Qed.

Lemma retry_third_attempt_returns {A} (f : M A) w e1 w1 e2 w2 v w3 :
  f w = Some (Raise e1, w1) ->
  f (log (EvSleep 3) w1) = Some (Raise e2, w2) ->
  f (log (EvSleep 4) w2) = Some (Return v, w3) ->
  retry 3 f w = Some (Return v, w3).
Proof.
  intros H1 H2 H3; unfold retry; simpl retry_loop; rewrite H1.
  change (wait_exponential 2 3 6 1) with 3; rewrite H2.
  change (wait_exponential 2 3 6 2) with 4; rewrite H3; reflexivity.
Qed.

Lemma retry_exhausted {A} (f : M A) w e1 w1 e2 w2 e3 w3 :
  f w = Some (Raise e1, w1) ->
  f (log (EvSleep 3) w1) = Some (Raise e2, w2) ->
  f (log (EvSleep 4) w2) = Some (Raise e3, w3) ->
  retry 3 f w = Some (Raise (RetryError 3 e3), w3).
Proof.
  intros H1 H2 H3; unfold retry; simpl retry_loop; rewrite H1.
  change (wait_exponential 2 3 6 1) with 3; rewrite H2.
  change (wait_exponential 2 3 6 2) with 4; rewrite H3; reflexivity.
Qed.

(** Whatever the attempts do, what the policy raises is a [RetryError]
    numbered with the last attempt allowed. *)
Lemma retry_loop_raises {A} (f : M A) remaining :
  forall k w e w',
    retry_loop remaining k f w = Some (Raise e, w') ->
    exists e', e = RetryError (k + remaining) e'.
Proof.
  induction remaining as [|n IH]; intros k w e w' H; simpl in H.
  - destruct (f w) as [[[v|e0] w0]|]; try discriminate.
    inversion H; subst; exists e0; rewrite Nat.add_0_r; reflexivity.
  - destruct (f w) as [[[v|e0] w0]|]; try discriminate.
    apply IH in H; destruct H as [e' ->]; exists e'; f_equal; lia.
Qed.

(** So what the decorated [_upload_file] raises is always a [RetryError]
    of the third attempt. *)
Lemma upload_file_raises_retry_error env fuel a w e w' :
  _upload_file env fuel a w = Some (Raise e, w') ->
  exists e', e = RetryError 3 e'.
Proof.
  destruct fuel as [|n]; [discriminate|]; simpl; unfold retry; intros H.
  exact (retry_loop_raises _ _ _ _ _ _ H).
Qed.

(** The [except] clause takes the last attempt's exception out of a
    [RetryError], whatever the target. *)
Lemma upload_reports_unwrapped_error
  env fuel target path un ft w n e w1 :
  upload_try env fuel target path un ft (upload_begin w)
  = Some (Raise (RetryError n e), w1) ->
  upload env fuel target path un ft w
  = Some (Return tt,
          mkJob (tick (log EvUpdaterCancel (tick w1)))
                [OnUploadError (sanitize (str (future_at env) e))] true).
Proof.
  intros H; unfold upload, upload_guarded; rewrite H.
  unfold upload_except, upload_finally; simpl.
  rewrite andb_false_r; reflexivity.
Qed.

(** When the three attempts at a whole-file upload all raise, with sleeps
    of 3 and 4 seconds between them, no further attempt is made by that
    call and what the decorated function raises wraps the third attempt's
    exception; for a single-file target the owning job is then told the
    text of that third exception, taken out of the one [RetryError] and
    stripped of angle brackets. *)
Lemma retry_exhaustion_reports_third_exception :
  forall env fuel name path unwanted_files ft_delete w e1 w1 e2 w2 e3 w3,
    PyStr.endswith_any (PyStr.lower path) (extension_filter env) = false ->
    upload_file_body env (_upload_file env fuel)
      (mkArgs path (listener_name env) (get_mime_type env path)
              (Some (up_dest (upload_begin w))) ft_delete false)
      (upload_begin w) = Some (Raise e1, w1) ->
    upload_file_body env (_upload_file env fuel)
      (mkArgs path (listener_name env) (get_mime_type env path)
              (Some (up_dest (upload_begin w))) ft_delete false)
      (log (EvSleep 3) w1) = Some (Raise e2, w2) ->
    upload_file_body env (_upload_file env fuel)
      (mkArgs path (listener_name env) (get_mime_type env path)
              (Some (up_dest (upload_begin w))) ft_delete false)
      (log (EvSleep 4) w2) = Some (Raise e3, w3) ->
    _upload_file env (S fuel)
      (mkArgs path (listener_name env) (get_mime_type env path)
              (Some (up_dest (upload_begin w))) ft_delete false)
      (upload_begin w) = Some (Raise (RetryError 3 e3), w3)
    /\ upload env (S fuel) (File name) path unwanted_files ft_delete w
       = Some (Return tt,
               mkJob (tick (log EvUpdaterCancel (tick w3)))
                     [OnUploadError (sanitize (str (future_at env) e3))] true).
Proof.
  intros env fuel name path un ft w e1 w1 e2 w2 e3 w3 Hf H1 H2 H3.
  assert (Hr : _upload_file env (S fuel)
                 (mkArgs path (listener_name env) (get_mime_type env path)
                         (Some (up_dest (upload_begin w))) ft false)
                 (upload_begin w) = Some (Raise (RetryError 3 e3), w3))
    by (exact (retry_exhausted _ _ _ _ _ _ _ _ H1 H2 H3)).
  split; [exact Hr|].
  apply upload_reports_unwrapped_error with (n := 3).
  unfold upload_try; rewrite Hf.
  unfold bind at 1, gets at 1; cbv beta iota.
  unfold bind at 1; rewrite Hr; reflexivity.
Qed.

(** C3 at a failing input.  In pool mode the first two attempts at a
    single file fail with a plain error; the third meets a quota error,
    rotates and re-enters the decorated [_upload_file], whose own three
    attempts fail.  Six attempts have then been made, and the job is told
    the text of the [RetryError] of the re-entered call, not that of the
    error of the last attempt. *)
Theorem C3_nested_retry_error_is_reported :
  match
    upload (sample_env None false) 2 (File "a.txt") "a.txt" [] []
      (mkWorld 0 []
         [Failure (forbidden_403 "first"); Failure (forbidden_403 "second");
          Failure quota_403; Failure (forbidden_403 "fourth");
          Failure (forbidden_403 "fifth"); Failure (forbidden_403 "sixth")]
         false "sa:root" 0 None 0%N 0 0)
  with
  | Some (out, j) =>
      out = Return tt
      /\ callbacks j
         = [OnUploadError
              "RetryError[Future at 0x7f3a5c0d2b50 state=finished raised HttpError]"]
      /\ trace (world j)
         = [EvAuthorize; EvUpdaterStart;
            EvNextChunk "a.txt"; EvSleep 3;
            EvNextChunk "a.txt"; EvSleep 4;
            EvNextChunk "a.txt"; EvSwitchServiceAccount;
            EvNextChunk "a.txt"; EvSleep 3;
            EvNextChunk "a.txt"; EvSleep 4;
            EvNextChunk "a.txt"; EvUpdaterCancel]
  | None => False
  end.
Proof. vm_compute; repeat split. Qed.

(** ** Cancellation *)

(** In pool mode with identities left, a quota failure met after the job
    was cancelled returns nothing and does not rotate. *)
Lemma on_json_error_cancelled env self a err reason w :
  reason_is_quota reason = true ->
  use_sa w = true ->
  sa_count w < sa_number env ->
  cancelled env w = true ->
  on_json_error env self a err (ErrorPayload reason) w
  = Some (Return None, tick w).
Proof.
  intros Hq Hsa Hlt Hc; unfold on_json_error; rewrite Hq.
  change (negb true) with false; cbv beta iota.
  unfold bind, gets, is_cancelled; cbv beta iota; rewrite Hsa; cbv beta iota.
  assert (E : (sa_number env <=? sa_count w)%nat = false)
    by (apply Nat.leb_gt; exact Hlt).
  rewrite E; cbv beta iota; rewrite Hc; reflexivity.
Qed.

(** A job that did not err has called nothing back before [finally]. *)
Lemma upload_except_clean env r w :
  is_errored (upload_except env r w) = false ->
  callbacks (upload_except env r w) = [] /\ exists l, r = Return l.
Proof.
  destruct r as [l|e]; simpl; [intros _; split; [reflexivity | exists l; reflexivity]
                              | discriminate].
Qed.

(** What the [try] block of a directory upload leaves in the locals. *)
Lemma upload_try_dir_locals env fuel name items path un ft w l w1 :
  upload_try env fuel (Dir name items) path un ft w = Some (Return l, w1) ->
  l_mime_type l = "Folder"
  /\ l_dir_id l = Some (new_folder_id env (clock w)).
Proof.
  unfold upload_try, bind, gets, create_directory, is_cancelled.
  destruct (_upload_dir env fuel path items _ un ft _) as [[[res|e] w2]|];
    try discriminate.
  destruct res as [x|]; [|discriminate].
  intros H; inversion H; subst; split; reflexivity.
Qed.

Lemma upload_try_file_locals env fuel name path un ft w l w1 :
  upload_try env fuel (File name) path un ft w = Some (Return l, w1) ->
  l_dir_id l = None.
Proof.
  unfold upload_try.
  destruct (PyStr.endswith_any _ _); [discriminate|].
  unfold bind, gets, is_cancelled.
  destruct (_upload_file env fuel _ _) as [[[lk|e] w2]|]; try discriminate.
  destruct (cancelled env w2).
  - intros H; inversion H; reflexivity.
  - destruct lk; [|discriminate]. intros H; inversion H; reflexivity.
Qed.

(** When the [finally] clause of [upload] reads the flag as set and the
    job has not erred, neither the completion nor the error callback has
    been or is called; for a directory the one call added after stopping
    the progress timer is the deletion of the top-level folder made at the
    start, and [upload] ends as that deletion ends; and the chunk loop,
    reading the flag as set, returns nothing without a request. *)
Lemma cancellation_is_silent :
  forall env fuel target path unwanted_files ft_delete w r j,
    upload_guarded env fuel target path unwanted_files ft_delete w = Some (r, j) ->
    is_errored j = false ->
    cancelled env (log EvUpdaterCancel (world j)) = true ->
    exists out j',
      upload env fuel target path unwanted_files ft_delete w = Some (out, j')
      /\ callbacks j' = []
      /\ is_errored j' = false
      /\ (forall name, target = File name ->
            trace (world j') = (trace (world j) ++ [EvUpdaterCancel])%list)
      /\ (forall name items, target = Dir name items ->
            out = match delete_error env
                          (new_folder_id env (clock (upload_begin w))) with
                  | Some e => Raise e
                  | None => Return tt
                  end
            /\ create_directory env (top_folder_name env)
                 (Some (up_dest (upload_begin w))) (upload_begin w)
               = Some (Return (new_folder_id env (clock (upload_begin w))),
                       log (EvCreateDirectory (top_folder_name env)
                              (Some (up_dest (upload_begin w)))
                              (new_folder_id env (clock (upload_begin w))))
                           (upload_begin w))
            /\ trace (world j')
               = (trace (world j)
                  ++ [EvUpdaterCancel;
                      EvDeleteRemote (new_folder_id env (clock (upload_begin w)))])%list)
      /\ (forall self a rs retries w0,
            cancelled env w0 = true ->
            chunk_loop env self a rs retries w0
            = Some (Return None, tick (tick w0))).
Proof.
  intros env fuel target path un ft w r j Hg He Hc.
  unfold upload; rewrite Hg.
  unfold upload_guarded in Hg.
  destruct (upload_try env fuel target path un ft (upload_begin w))
    as [[r0 w1]|] eqn:Ht; [|discriminate].
  inversion Hg; subst r0 j; clear Hg.
  destruct (upload_except_clean _ _ _ He) as [Hcb [l ->]].
  simpl in He, Hcb, Hc |- *.
  unfold upload_finally; simpl world; simpl is_errored; simpl callbacks.
  rewrite Hc; simpl andb; cbv iota.
  destruct target as [fname|dname items].
  - rewrite (upload_try_file_locals _ _ _ _ _ _ _ _ _ Ht).
    destruct (String.eqb (l_mime_type l) "Folder");
      eexists; eexists; (split; [reflexivity|]);
      (split; [reflexivity|]); (split; [reflexivity|]);
      (split; [intros ? _; reflexivity|]);
      (split; [intros ? ? Hd; discriminate Hd|]);
      intros; apply chunk_loop_cancelled; assumption.
  - destruct (upload_try_dir_locals _ _ _ _ _ _ _ _ _ _ Ht) as [Hm Hd].
    rewrite Hm, Hd; simpl String.eqb; cbv iota.
    eexists; eexists; (split; [reflexivity|]);
      (split; [reflexivity|]); (split; [reflexivity|]).
    split; [intros ? Hd'; discriminate Hd'|].
    split; [intros ? ? _; split; [reflexivity|split; [reflexivity|]]|].
    + simpl; rewrite <- app_assoc; reflexivity.
    + intros; apply chunk_loop_cancelled; assumption.
Qed.

(** C5 at a failing input.  A directory upload is cancelled during the
    first chunk of its first file and the service refuses the deletion of
    the top-level folder: neither callback is called and the deletion is
    requested, but its exception is not caught and leaves [upload]. *)
Theorem C5_failed_rollback_leaves_upload :
  match
    upload (rollback_refused_env (Some 6)) 2
      (Dir "d" [File "a.txt"; File "c.txt"]) "d" [] []
      (sample_world false [Progress 100; Finished "f1"])
  with
  | Some (out, j) =>
      out = Raise rollback_refused
      /\ callbacks j = []
      /\ is_errored j = false
      /\ trace (world j)
         = [EvAuthorize; EvUpdaterStart;
            EvCreateDirectory "top" (Some "root") "folder1"; EvListdir "d";
            EvNextChunk "d/a.txt"; EvUpdaterCancel; EvDeleteRemote "folder1"]
  | None => False
  end.
Proof. vm_compute; repeat split. Qed.

(** ** The job counters are left alone by the transfer client *)

Lemma counters_kept_refl w : counters_kept w w.
Proof. split; reflexivity. Qed.

Lemma counters_kept_trans w1 w2 w3 :
  counters_kept w1 w2 -> counters_kept w2 w3 -> counters_kept w1 w3.
Proof. unfold counters_kept; intros [H1 H2] [H3 H4]; split; congruence. Qed.

Lemma keeps_ret {A} (v : A) : keeps (ret v).
Proof. intros w r w' H; inversion H; apply counters_kept_refl. Qed.

Lemma keeps_raise {A} e : keeps (@raise A e).
Proof. intros w r w' H; inversion H; apply counters_kept_refl. Qed.

Lemma keeps_gets {A} (f : World -> A) : keeps (gets f).
Proof. intros w r w' H; inversion H; apply counters_kept_refl. Qed.

Lemma keeps_modify (f : World -> World) :
  (forall w, counters_kept w (f w)) -> keeps (modify f).
Proof. intros Hf w r w' H; inversion H; apply Hf. Qed.

Lemma keeps_call ev : keeps (call ev).
Proof. intros w r w' H; inversion H; split; reflexivity. Qed.

Lemma keeps_is_cancelled env : keeps (is_cancelled env).
Proof. intros w r w' H; inversion H; split; reflexivity. Qed.

Lemma keeps_bind {A B} (m : M A) (k : A -> M B) :
  keeps m -> (forall v, keeps (k v)) -> keeps (bind m k).
Proof.
  intros Hm Hk w r w' H; unfold bind in H.
  destruct (m w) as [[[v|e] w1]|] eqn:E; [| |discriminate].
  - eapply counters_kept_trans; [eapply Hm; exact E | eapply Hk; exact H].
  - inversion H; subst; eapply Hm; exact E.
Qed.

Lemma keeps_if {A} (b : bool) (m1 m2 : M A) :
  keeps m1 -> keeps m2 -> keeps (if b then m1 else m2).
Proof. destruct b; auto. Qed.

Lemma keeps_switch_service_account : keeps switch_service_account.
Proof. intros w r w' H; inversion H; split; reflexivity. Qed.

Lemma keeps_get_file env id : keeps (get_file env id).
Proof.
  intros w r w' H; unfold get_file in H.
  destruct (get_error env id (clock w)); inversion H; split; reflexivity.
Qed.

Lemma keeps_create_directory env name parent :
  keeps (create_directory env name parent).
Proof. intros w r w' H; inversion H; split; reflexivity. Qed.

Lemma keeps_remove env p : keeps (remove env p).
Proof.
  intros w r w' H; unfold remove in H.
  destruct (remove_fails env p); inversion H; split; reflexivity.
Qed.

Lemma keeps_suppress m : keeps m -> keeps (suppress m).
Proof.
  intros Hm w r w' H; unfold suppress in H.
  destruct (m w) as [[[v|e] w1]|] eqn:E; inversion H; subst;
    eapply Hm; exact E.
Qed.

Lemma keeps_subscript_id response : keeps (subscript_id response).
Proof. destruct response; [apply keeps_ret | apply keeps_raise]. Qed.

Create HintDb keeps.

#[local] Hint Resolve keeps_ret keeps_raise keeps_gets keeps_call
  keeps_is_cancelled keeps_switch_service_account keeps_get_file
  keeps_create_directory keeps_remove keeps_suppress keeps_subscript_id
  : keeps.

Ltac keeps_step :=
  first [ apply keeps_bind; [|intros ?]
        | apply keeps_if
        | apply keeps_modify; intros ?; split; reflexivity
        | solve [auto with keeps] ].

Lemma keeps_finish env a response : keeps (finish env a response).
Proof. unfold finish, set_permission; repeat keeps_step. Qed.

Lemma keeps_on_json_error env self a err content :
  keeps (self a) -> keeps (on_json_error env self a err content).
Proof.
  intros Hs; unfold on_json_error; destruct content; [|apply keeps_raise].
  repeat keeps_step; exact Hs.
Qed.

Lemma keeps_chunk_loop env self a :
  keeps (self a) ->
  forall rs retries, keeps (chunk_loop env self a rs retries).
Proof.
  intros Hs; induction rs as [|r rest IH]; intros retries; simpl.
  - apply keeps_bind; [auto with keeps|intros c].
    apply keeps_if; [apply keeps_finish|intros w r w' H; discriminate H].
  - apply keeps_bind; [auto with keeps|intros c].
    apply keeps_if; [apply keeps_finish|].
    apply keeps_bind; [apply keeps_modify; intros ?; split; reflexivity|intros _].
    destruct r as [p|id|e].
    + apply keeps_bind; [apply keeps_modify; intros ?; split; reflexivity|intros _].
      apply IH.
    + apply keeps_bind; [apply keeps_modify; intros ?; split; reflexivity|intros _].
      apply keeps_finish.
    + destruct e; try apply keeps_raise.
      repeat apply keeps_if; try apply IH.
      apply keeps_on_json_error; exact Hs.
Qed.

Lemma keeps_execute_create a : keeps (execute_create a).
Proof.
  intros w r w' H; unfold execute_create in H.
  destruct (script w) as [|[p|id|e] rest]; inversion H; split; reflexivity.
Qed.

Lemma keeps_upload_file_body env self a :
  keeps (self a) -> keeps (upload_file_body env self a).
Proof.
  intros Hs; unfold upload_file_body, set_permission.
  destruct (getsize env (file_path a) =? 0)%N.
  - pose proof (keeps_execute_create a); repeat keeps_step.
  - intros w r w' H; eapply keeps_chunk_loop; eauto.
Qed.

Lemma keeps_retry_loop {A} (f : M A) :
  keeps f -> forall remaining k, keeps (retry_loop remaining k f).
Proof.
  intros Hf; induction remaining as [|n IH]; intros k w r w' H; simpl in H;
    destruct (f w) as [[[v|e] w1]|] eqn:E; try discriminate.
  - inversion H; subst; eapply Hf; exact E.
  - inversion H; subst; eapply Hf; exact E.
  - inversion H; subst; eapply Hf; exact E.
  - apply IH in H. eapply counters_kept_trans; [eapply Hf; exact E|].
    destruct H as [H1 H2]; split; [exact H1 | exact H2].
Qed.

Lemma keeps_upload_file env fuel : forall a, keeps (_upload_file env fuel a).
Proof.
  induction fuel as [|n IH]; intros a; simpl.
  - intros w r w' H; discriminate H.
  - unfold retry; apply keeps_retry_loop, keeps_upload_file_body, IH.
Qed.

(** ** The directory walker: counters, exclusion, deletion *)

(** An excluded file is not transferred: the turn of the loop is its local
    deletion, if the seed and new-directory flags ask for one, and the
    marker "filter". *)
Lemma upload_dir_entry_excluded env self_dir upload_file dir dest un ft name :
  wanted env un (PyStr.join dir name) name = false ->
  upload_dir_entry env self_dir upload_file dir dest un ft (File name)
  = ((if (negb (seed env) || new_dir env)%bool
      then remove env (PyStr.join dir name)
      else ret tt) ;;;
     ret (Some "filter")).
Proof.
  intros H; unfold upload_dir_entry; cbv zeta; simpl node_name; rewrite H;
    reflexivity.
Qed.

Lemma upload_dir_entry_wanted env self_dir upload_file dir dest un ft name :
  wanted env un (PyStr.join dir name) name = true ->
  upload_dir_entry env self_dir upload_file dir dest un ft (File name)
  = (_ <- upload_file
            (mkArgs (PyStr.join dir name)
                    (PyStr.last_segment (PyStr.join dir name))
                    (get_mime_type env (PyStr.join dir name)) dest ft true) ;;
     modify (fun w => set_total_files (total_files w + 1) w) ;;;
     ret dest).
Proof.
  intros H; unfold upload_dir_entry; cbv zeta; simpl node_name; rewrite H;
    reflexivity.
Qed.

(** The counters across one turn of the walker's loop. *)
Lemma upload_dir_entry_counters :
  forall env fuel self_dir dir dest un ft item w r w',
    upload_dir_entry env self_dir (_upload_file env fuel) dir dest un ft item w
    = Some (r, w') ->
    match item with
    | File name =>
        total_folders w' = total_folders w
        /\ total_files w'
           = total_files w
             + (if wanted env un (PyStr.join dir name) name
                then match r with Return _ => 1 | Raise _ => 0 end
                else 0)
    | Dir name items =>
        exists r1 w1,
          self_dir (PyStr.join dir name) items
            (Some (new_folder_id env (clock w)))
            (log (EvCreateDirectory name dest (new_folder_id env (clock w))) w)
          = Some (r1, w1)
          /\ total_files w' = total_files w1
          /\ total_folders w'
             = total_folders w1
               + match r1 with Return _ => 1 | Raise _ => 0 end
    end.
Proof.
  intros env fuel self_dir dir dest un ft item w r w' H.
  destruct item as [name|name items].
  - destruct (wanted env un (PyStr.join dir name) name) eqn:Hw.
    + rewrite upload_dir_entry_wanted in H by exact Hw.
      unfold bind, modify, ret in H.
      destruct (_upload_file env fuel _ w) as [[[v|e] w1]|] eqn:E;
        [| |discriminate].
      * destruct (keeps_upload_file _ _ _ _ _ _ E) as [Hf Hd].
        inversion H; subst; simpl; split; [exact Hd | rewrite Hf; reflexivity].
      * destruct (keeps_upload_file _ _ _ _ _ _ E) as [Hf Hd].
        inversion H; subst; split; [exact Hd | rewrite Hf; lia].
    + rewrite upload_dir_entry_excluded in H by exact Hw.
      assert (K : keeps ((if (negb (seed env) || new_dir env)%bool
                          then remove env (PyStr.join dir name)
                          else ret tt) ;;; ret (Some "filter")))
        by (repeat keeps_step).
      destruct (K _ _ _ H) as [Hf Hd]; split; [exact Hd | rewrite Hf; lia].
  - unfold upload_dir_entry in H; simpl node_name in H.
    unfold bind at 1, create_directory at 1 in H.
    unfold bind, modify, ret in H.
    destruct (self_dir _ items _ _) as [[[v|e] w1]|] eqn:E; [| |discriminate].
    + inversion H; subst; exists (Return v), w1; simpl.
      split; [reflexivity | split; reflexivity].
    + inversion H; subst; exists (Raise e), w'; simpl.
      split; [reflexivity | split; [reflexivity | lia]].
Qed.

(** The walker's loop stops after the turn at whose end the flag reads
    set; the entries that follow are not looked at. *)
Lemma upload_dir_loop_break env self_dir upload_file dir dest un ft
  item rest new_id w v w' :
  upload_dir_entry env self_dir upload_file dir dest un ft item w
  = Some (Return v, w') ->
  cancelled env w' = true ->
  upload_dir_loop env self_dir upload_file dir dest un ft (item :: rest) new_id w
  = Some (Return v, tick w').
Proof.
  intros He Hc; simpl; unfold bind at 1; rewrite He.
  unfold bind, is_cancelled; rewrite Hc; reflexivity.
Qed.

(** C7 (as amended).  One turn of the walker's loop adds one to the file
    counter exactly when the entry is a file that passes the filter and
    the call of [_upload_file] returns, whatever it returns; it adds one to
    the folder counter exactly when the entry is a sub-directory and the
    walk of it returns; an excluded file changes neither.  When the flag
    reads set at the end of the turn the loop ends there, the entry of
    that turn counted. *)
Theorem C7_counters_follow_returned_calls :
  forall env fuel self_dir dir dest un ft item w r w',
    upload_dir_entry env self_dir (_upload_file env fuel) dir dest un ft item w
    = Some (r, w') ->
    match item with
    | File name =>
        total_folders w' = total_folders w
        /\ total_files w'
           = total_files w
             + (if wanted env un (PyStr.join dir name) name
                then match r with Return _ => 1 | Raise _ => 0 end
                else 0)
    | Dir name items =>
        exists r1 w1,
          self_dir (PyStr.join dir name) items
            (Some (new_folder_id env (clock w)))
            (log (EvCreateDirectory name dest (new_folder_id env (clock w))) w)
          = Some (r1, w1)
          /\ total_files w' = total_files w1
          /\ total_folders w'
             = total_folders w1
               + match r1 with Return _ => 1 | Raise _ => 0 end
    end
    /\ (forall v rest new_id,
          r = Return v ->
          cancelled env w' = true ->
          upload_dir_loop env self_dir (_upload_file env fuel) dir dest un ft
            (item :: rest) new_id w
          = Some (Return v, tick w')).
Proof.
  intros env fuel self_dir dir dest un ft item w r w' H; split.
  - exact (upload_dir_entry_counters _ _ _ _ _ _ _ _ _ _ _ H).
  - intros v rest new_id -> Hc; apply upload_dir_loop_break; assumption.
Qed.

Lemma C7_counters_follow_returned_calls_witness :
  exists r w',
    upload_dir_entry (sample_env None false)
      (fun p items d => _upload_dir (sample_env None false) 1 p items d [] [])
      (_upload_file (sample_env None false) 1) "d" (Some "folder1") [] []
      (File "a.txt") (sample_world false [Progress 100; Finished "f1"])
    = Some (r, w')
    /\ total_files w' = 1 /\ total_folders w' = 0.
Proof.
  eassert (H : upload_dir_entry (sample_env None false)
                 (fun p items d => _upload_dir (sample_env None false) 1 p items d [] [])
                 (_upload_file (sample_env None false) 1) "d" (Some "folder1")
                 [] [] (File "a.txt")
                 (sample_world false [Progress 100; Finished "f1"])
               = Some (_, _)) by (vm_compute; reflexivity).
  pose proof (C7_counters_follow_returned_calls _ _ _ _ _ _ _ _ _ _ _ H) as K.
  destruct K as [[K1 K2] _].
  eexists; eexists; split; [exact H | split; [exact K2 | exact K1]].
Defined.

(** C7 (as stated) fails: the job is cancelled before the first chunk of
    the only file of a directory is requested; no request is made, the
    replies of the service are still to come, and yet the file counter
    reads one. *)
Lemma C7_counterexample :
  match
    _upload_dir (sample_env (Some 1) false) 2 "d" [File "a.txt"]
      (Some "folder1") [] [] (sample_world false [Progress 100; Finished "f1"])
  with
  | Some (r, w) =>
      r = Return (Some "folder1")
      /\ trace w = [EvListdir "d"]
      /\ script w = [Progress 100; Finished "f1"]
      /\ total_files w = 1
  | None => False
  end.
Proof. vm_compute; repeat split. Qed.




(** C10 at a failing input.  While seeding, a filtered file that is listed
    in the per-file deletion set is left in place by the walker, whereas a
    transferred file listed there is removed by the transfer client. *)
Theorem C10_filtered_file_in_override_set_kept :
  seed (sample_env None true) = true
  /\ new_dir (sample_env None true) = false
  /\ summary
       (_upload_dir (sample_env None true) 2 "d" [File "b.zip"]
          (Some "folder1") [] ["d/b.zip"] (sample_world false []))
     = Some (Return (Some "filter"), [EvListdir "d"])
  /\ summary
       (_upload_dir (sample_env None true) 2 "d" [File "a.txt"]
          (Some "folder1") [] ["d/a.txt"] (sample_world false [Finished "f1"]))
     = Some (Return (Some "folder1"),
             [EvListdir "d"; EvNextChunk "d/a.txt"; EvRemove "d/a.txt" true;
              EvSetPermission "f1"]).
Proof. vm_compute; repeat split. Qed.

(** The walker's treatment of an excluded file does not look at the
    per-file deletion set at all. *)
Lemma upload_dir_entry_excluded_ignores_ft_delete
  env self_dir upload_file dir dest un ft ft' name :
  wanted env un (PyStr.join dir name) name = false ->
  upload_dir_entry env self_dir upload_file dir dest un ft (File name)
  = upload_dir_entry env self_dir upload_file dir dest un ft' (File name).
Proof.
  intros H; rewrite !upload_dir_entry_excluded by exact H; reflexivity.
Qed.

(** ** Local deletion by the transfer client *)

(** The deletion test of line 259, when the look-up of the uploaded
    object succeeds. *)
Lemma finish_not_cancelled env a id w :
  cancelled env w = false ->
  (forall c, get_error env id c = None) ->
  exists w',
    finish env a (Some id) w
    = Some (Return (if in_dir a then None
                    else Some (G_DRIVE_BASE_DOWNLOAD_URL env id)), w')
    /\ trace w'
       = (trace w
          ++ (if (negb (seed env) || new_dir env
                  || PyStr.mem (file_path a) (ft_delete a))%bool
              then [EvRemove (file_path a) (negb (remove_fails env (file_path a)))]
              else [])
          ++ (if IS_TEAM_DRIVE env then [] else [EvSetPermission id])
          ++ (if in_dir a then [] else [EvGetFile id]))%list.
Proof.
  intros Hc Hg; unfold finish, bind, is_cancelled; rewrite Hc; cbv beta iota.
  unfold suppress, remove, modify, set_permission, call, subscript_id, get_file, ret.
  destruct (negb (seed env) || new_dir env
            || PyStr.mem (file_path a) (ft_delete a))%bool;
    [destruct (remove_fails env (file_path a))|];
    destruct (IS_TEAM_DRIVE env); destruct (in_dir a); simpl;
    rewrite ?Hg;
    eexists; (split; [reflexivity|]); simpl;
    repeat rewrite <- app_assoc; try rewrite app_nil_r; reflexivity.
Qed.

Lemma finish_cancelled env a response w :
  cancelled env w = true ->
  finish env a response w = Some (Return None, tick w).
Proof. intros Hc; unfold finish, bind, is_cancelled; rewrite Hc; reflexivity. Qed.

(** The non-resumable path: what a zero-length file goes through when the
    look-up of the uploaded object succeeds. *)
Lemma upload_file_body_zero_length env self a id rest w :
  getsize env (file_path a) = 0%N ->
  script w = Finished id :: rest ->
  (forall c, get_error env id c = None) ->
  exists w',
    upload_file_body env self a w
    = Some (Return (Some (G_DRIVE_BASE_DOWNLOAD_URL env id)), w')
    /\ trace w'
       = (trace w
          ++ [EvCreateFile (file_path a) (dest_id a)]
          ++ (if IS_TEAM_DRIVE env then [] else [EvSetPermission id])
          ++ [EvGetFile id])%list.
Proof.
  intros Hs Hr Hg; unfold upload_file_body; rewrite Hs.
  change (0 =? 0)%N with true; cbv iota.
  unfold bind, execute_create; cbv beta; rewrite Hr.
  unfold set_permission, call, get_file, ret.
  destruct (IS_TEAM_DRIVE env); simpl; rewrite Hg;
    eexists; (split; [reflexivity|]); simpl;
    repeat rewrite <- app_assoc; reflexivity.
Qed.

(** C6 at a failing input.  With seeding off, a zero-length file is
    uploaded and its link returned, yet [os.remove] is never called on it;
    a file with content, under the same policy, is removed once after its
    last chunk. *)
Theorem C6_zero_length_file_not_deleted :
  seed (sample_env None false) = false
  /\ summary
       (_upload_file (sample_env None false) 1 (sample_args "empty.txt" false)
          (sample_world false [Finished "f1"]))
     = Some (Return (Some "file-base/f1"),
             [EvCreateFile "empty.txt" (Some "root"); EvSetPermission "f1";
              EvGetFile "f1"])
  /\ summary
       (_upload_file (sample_env None false) 1 (sample_args "a.txt" false)
          (sample_world false [Finished "f1"]))
     = Some (Return (Some "file-base/f1"),
             [EvNextChunk "a.txt"; EvRemove "a.txt" true; EvSetPermission "f1";
              EvGetFile "f1"]).
Proof. vm_compute; repeat split. Qed.

(** ** The recursion budget only ever adds results *)

Lemma refines_refl {A} (m : M A) : refines m m.
Proof. intros w x H; exact H. Qed.

Lemma refines_bind {A B} (m1 m2 : M A) (k1 k2 : A -> M B) :
  refines m1 m2 -> (forall v, refines (k1 v) (k2 v)) ->
  refines (bind m1 k1) (bind m2 k2).
Proof.
  intros Hm Hk w x H; unfold bind in *.
  destruct (m1 w) as [[[v|e] w1]|] eqn:E; [| |discriminate];
    rewrite (Hm _ _ E); [apply Hk; exact H | exact H].
Qed.

Lemma refines_bind_same {A B} (m : M A) (k1 k2 : A -> M B) :
  (forall v, refines (k1 v) (k2 v)) -> refines (bind m k1) (bind m k2).
Proof. intros Hk; apply refines_bind; [apply refines_refl | exact Hk]. Qed.

Lemma refines_if {A} (b : bool) (m1 m2 n1 n2 : M A) :
  refines m1 n1 -> refines m2 n2 ->
  refines (if b then m1 else m2) (if b then n1 else n2).
Proof. destruct b; auto. Qed.

Lemma refines_on_json_error env self1 self2 a err content :
  refines (self1 a) (self2 a) ->
  refines (on_json_error env self1 a err content)
          (on_json_error env self2 a err content).
Proof.
  intros Hs; unfold on_json_error; destruct content; [|apply refines_refl].
  apply refines_if; [apply refines_refl|].
  apply refines_bind_same; intros sa.
  apply refines_if; [|apply refines_refl].
  apply refines_bind_same; intros used.
  apply refines_if; [apply refines_refl|].
  apply refines_bind_same; intros c.
  apply refines_if; [apply refines_refl|].
  apply refines_bind_same; intros _; exact Hs.
Qed.

Lemma refines_chunk_loop env self1 self2 a :
  refines (self1 a) (self2 a) ->
  forall rs retries,
    refines (chunk_loop env self1 a rs retries)
            (chunk_loop env self2 a rs retries).
Proof.
  intros Hs; induction rs as [|r rest IH]; intros retries; simpl.
  - apply refines_refl.
  - apply refines_bind_same; intros c.
    apply refines_if; [apply refines_refl|].
    apply refines_bind_same; intros _.
    destruct r as [p|id|e].
    + apply refines_bind_same; intros _; apply IH.
    + apply refines_refl.
    + destruct e; try apply refines_refl.
      repeat apply refines_if; try apply IH.
      apply refines_on_json_error; exact Hs.
Qed.

Lemma refines_upload_file_body env self1 self2 a :
  refines (self1 a) (self2 a) ->
  refines (upload_file_body env self1 a) (upload_file_body env self2 a).
Proof.
  intros Hs; unfold upload_file_body.
  destruct (getsize env (file_path a) =? 0)%N; [apply refines_refl|].
  intros w x H; eapply refines_chunk_loop; eauto.
Qed.

Lemma refines_retry_loop {A} (f g : M A) :
  refines f g ->
  forall remaining k, refines (retry_loop remaining k f) (retry_loop remaining k g).
Proof.
  intros Hfg; induction remaining as [|n IH]; intros k w x H; simpl in *;
    destruct (f w) as [[[v|e] w1]|] eqn:E; try discriminate;
    rewrite (Hfg _ _ E); try exact H.
  apply IH; exact H.
Qed.

Lemma upload_file_fuel_monotone env :
  forall n m, n <= m -> forall a, refines (_upload_file env n a) (_upload_file env m a).
Proof.
  induction n as [|n IH]; intros m Hle a.
  - intros w x H; discriminate H.
  - destruct m as [|m]; [lia|]; simpl.
    unfold retry; apply refines_retry_loop, refines_upload_file_body.
    apply IH; lia.
Qed.

Lemma refines_upload_dir_loop env sd1 sd2 uf1 uf2 dir dest un ft :
  (forall p items d, refines (sd1 p items d) (sd2 p items d)) ->
  (forall a, refines (uf1 a) (uf2 a)) ->
  forall items new_id,
    refines (upload_dir_loop env sd1 uf1 dir dest un ft items new_id)
            (upload_dir_loop env sd2 uf2 dir dest un ft items new_id).
Proof.
  intros Hsd Huf; induction items as [|item rest IH]; intros new_id; simpl.
  - apply refines_refl.
  - apply refines_bind.
    + unfold upload_dir_entry; destruct item as [name|name sub].
      * apply refines_if; [|apply refines_refl].
        apply refines_bind; [apply Huf | intros ?; apply refines_refl].
      * apply refines_bind_same; intros id.
        apply refines_bind; [apply Hsd | intros ?; apply refines_refl].
    + intros v; apply refines_bind_same; intros c.
      apply refines_if; [apply refines_refl | apply IH].
Qed.

Lemma upload_dir_fuel_monotone env un ft :
  forall n m, n <= m ->
  forall dir items dest,
    refines (_upload_dir env n dir items dest un ft)
            (_upload_dir env m dir items dest un ft).
Proof.
  induction n as [|n IH]; intros m Hle dir items dest.
  - intros w x H; discriminate H.
  - destruct m as [|m]; [lia|]; simpl.
    apply refines_bind_same; intros _.
    destruct items as [|item rest]; [apply refines_refl|].
    apply refines_upload_dir_loop.
    + intros p sub d; apply IH; lia.
    + intros a; apply upload_file_fuel_monotone; lia.
Qed.

(** A result of [upload] stays the result under any larger budget. *)
Lemma upload_fuel_monotone env n m target path un ft w x :
  n <= m ->
  upload env n target path un ft w = Some x ->
  upload env m target path un ft w = Some x.
Proof.
  intros Hle H; unfold upload, upload_guarded in *.
  assert (R : refines (upload_try env n target path un ft)
                      (upload_try env m target path un ft)).
  { unfold upload_try; destruct target as [name|name items].
    - apply refines_if; [apply refines_refl|].
      apply refines_bind_same; intros dest.
      apply refines_bind;
        [apply upload_file_fuel_monotone; exact Hle | intros ?; apply refines_refl].
    - apply refines_bind_same; intros dest.
      apply refines_bind_same; intros dir_id.
      apply refines_bind;
        [apply upload_dir_fuel_monotone; exact Hle | intros ?; apply refines_refl]. }
  destruct (upload_try env n target path un ft (upload_begin w))
    as [[r w1]|] eqn:E; [|discriminate].
  rewrite (R _ _ E); exact H.
Qed.

(** ** A walk that runs to its end *)

Lemma list_sum_map_cons {A} (f : A -> nat) x l :
  list_sum (map f (x :: l)) = f x + list_sum (map f l).
Proof. reflexivity. Qed.

Lemma upload_dir_loop_counts env fuel self_dir dir dest un ft :
  cancel_at env = None ->
  (forall p sub d w v w',
      self_dir p sub d w = Some (Return v, w') ->
      total_files w' = total_files w + list_sum (map (files_in env un p) sub)
      /\ total_folders w' = total_folders w + list_sum (map folders_in sub)) ->
  forall items new_id w v w',
    upload_dir_loop env self_dir (_upload_file env fuel) dir dest un ft
      items new_id w = Some (Return v, w') ->
    total_files w' = total_files w + list_sum (map (files_in env un dir) items)
    /\ total_folders w' = total_folders w + list_sum (map folders_in items).
Proof.
  intros Hnc Hsd; induction items as [|item rest IH]; intros new_id w v w' H.
  - inversion H; subst; simpl; split; lia.
  - simpl in H; unfold bind at 1 in H.
    destruct (upload_dir_entry env self_dir (_upload_file env fuel) dir dest
                un ft item w) as [[[v1|e1] w1]|] eqn:E; try discriminate.
    unfold bind, is_cancelled in H; rewrite (cancelled_never _ _ Hnc) in H.
    apply IH in H; destruct H as [Hf Hd].
    change (total_files (tick w1)) with (total_files w1) in Hf.
    change (total_folders (tick w1)) with (total_folders w1) in Hd.
    pose proof (upload_dir_entry_counters _ _ _ _ _ _ _ _ _ _ _ E) as K.
    rewrite !list_sum_map_cons.
    destruct item as [name|name sub].
    + destruct K as [Kd Kf].
      change (files_in env un dir (File name))
        with (if wanted env un (PyStr.join dir name) name then 1 else 0).
      change (folders_in (File name)) with 0.
      split; lia.
    + destruct K as (r1 & w2 & Hs & Kf & Kd).
      destruct r1 as [v2|e2].
      * apply Hsd in Hs; destruct Hs as [Sf Sd].
        change (files_in env un dir (Dir name sub))
          with (list_sum (map (files_in env un (PyStr.join dir name)) sub)).
        change (folders_in (Dir name sub))
          with (1 + list_sum (map folders_in sub)).
        change (total_files (log (EvCreateDirectory name dest
                                    (new_folder_id env (clock w))) w))
          with (total_files w) in Sf.
        change (total_folders (log (EvCreateDirectory name dest
                                      (new_folder_id env (clock w))) w))
          with (total_folders w) in Sd.
        split; lia.
      * (* the sub-directory walk raised: the turn raises too *)
        unfold upload_dir_entry in E; simpl node_name in E.
        unfold bind at 1, create_directory at 1 in E.
        unfold bind at 1 in E; rewrite Hs in E; discriminate E.
Qed.

(** When the job is never cancelled and the walk of a directory returns,
    the counters have gone up by the number of files that pass the filter
    and by the number of sub-directories of the whole tree. *)
Lemma upload_dir_counts env un ft :
  cancel_at env = None ->
  forall fuel dir items dest w v w',
    _upload_dir env fuel dir items dest un ft w = Some (Return v, w') ->
    total_files w' = total_files w + list_sum (map (files_in env un dir) items)
    /\ total_folders w' = total_folders w + list_sum (map folders_in items).
Proof.
  intros Hnc; induction fuel as [|n IH]; intros dir items dest w v w' H.
  - discriminate H.
  - simpl in H; unfold bind at 1, call at 1 in H.
    destruct items as [|item rest].
    + inversion H; subst; simpl; split; lia.
    + change (total_files w) with (total_files (log (EvListdir dir) w)).
      change (total_folders w) with (total_folders (log (EvListdir dir) w)).
      apply (upload_dir_loop_counts env n _ dir dest un ft Hnc) in H.
      * exact H.
      * intros p sub d w0 v0 w0' H0; apply (IH _ _ _ _ _ _ H0).
Qed.

(** * Further properties of the upload engine *)

(** ** A relation kept by every step is kept by the whole transfer *)

Section Frame.

Variable env : Env.
Variable R : World -> World -> Prop.

Hypothesis R_refl : forall w, R w w.
Hypothesis R_trans : forall w1 w2 w3, R w1 w2 -> R w2 w3 -> R w1 w3.
Hypothesis R_tick : forall w, R w (tick w).
Hypothesis R_log : forall ev w, plain_event ev = true -> R w (log ev w).
Hypothesis R_set_script : forall rs w, R w (set_script rs w).
Hypothesis R_set_status : forall s w, R w (set_status s w).
Hypothesis R_set_file_processed_bytes :
  forall n w, R w (set_file_processed_bytes n w).
Hypothesis R_rotate :
  forall w, use_sa w = true -> sa_count w < sa_number env -> R w (rotate w).

Lemma respects_ret {A} (v : A) : respects R (ret v).
Proof. intros w r w' H; inversion H; apply R_refl. Qed.

Lemma respects_raise {A} e : respects R (@raise A e).
Proof. intros w r w' H; inversion H; apply R_refl. Qed.

Lemma respects_gets {A} (f : World -> A) : respects R (gets f).
Proof. intros w r w' H; inversion H; apply R_refl. Qed.

Lemma respects_modify (f : World -> World) :
  (forall w, R w (f w)) -> respects R (modify f).
Proof. intros Hf w r w' H; inversion H; apply Hf. Qed.

Lemma respects_call ev : plain_event ev = true -> respects R (call ev).
Proof. intros Hp w r w' H; inversion H; apply R_log; exact Hp. Qed.

Lemma respects_is_cancelled : respects R (is_cancelled env).
Proof. intros w r w' H; inversion H; apply R_tick. Qed.

Lemma respects_bind {A B} (m : M A) (k : A -> M B) :
  respects R m -> (forall v, respects R (k v)) -> respects R (bind m k).
Proof.
  intros Hm Hk w r w' H; unfold bind in H.
  destruct (m w) as [[[v|e] w1]|] eqn:E; [| |discriminate].
  - eapply R_trans; [eapply Hm; exact E | eapply Hk; exact H].
  - inversion H; subst; eapply Hm; exact E.
Qed.

Lemma respects_if {A} (b : bool) (m1 m2 : M A) :
  respects R m1 -> respects R m2 -> respects R (if b then m1 else m2).
Proof. destruct b; auto. Qed.

Lemma respects_get_file id : respects R (get_file env id).
Proof.
  intros w r w' H; unfold get_file in H.
  destruct (get_error env id (clock w)); inversion H; apply R_log; reflexivity.
Qed.

Lemma respects_create_directory name parent :
  respects R (create_directory env name parent).
Proof. intros w r w' H; inversion H; apply R_log; reflexivity. Qed.

Lemma respects_remove p : respects R (remove env p).
Proof.
  intros w r w' H; unfold remove in H.
  destruct (remove_fails env p); inversion H; apply R_log; reflexivity.
Qed.

Lemma respects_suppress m : respects R m -> respects R (suppress m).
Proof.
  intros Hm w r w' H; unfold suppress in H.
  destruct (m w) as [[[v|e] w1]|] eqn:E; inversion H; subst;
    eapply Hm; exact E.
Qed.

Lemma respects_subscript_id response : respects R (subscript_id response).
Proof. destruct response; [apply respects_ret | apply respects_raise]. Qed.

Lemma respects_set_permission id : respects R (set_permission id).
Proof. apply respects_call; reflexivity. Qed.

Lemma respects_finish a response : respects R (finish env a response).
Proof.
  unfold finish.
  apply respects_bind; [apply respects_is_cancelled|intros c].
  apply respects_if; [apply respects_ret|].
  apply respects_bind;
    [apply respects_if;
       [apply respects_suppress, respects_remove | apply respects_ret]|intros _].
  apply respects_bind;
    [apply respects_modify; intros; apply R_set_file_processed_bytes|intros _].
  apply respects_bind.
  - apply respects_if; [|apply respects_ret].
    apply respects_bind; [apply respects_subscript_id|intros id].
    apply respects_set_permission.
  - intros _; apply respects_if; [|apply respects_ret].
    apply respects_bind; [apply respects_subscript_id|intros id].
    apply respects_bind; [apply respects_get_file|intros id'].
    apply respects_ret.
Qed.

Lemma respects_on_json_error self a err content :
  respects R (self a) -> respects R (on_json_error env self a err content).
Proof.
  intros Hs w r w' H; unfold on_json_error in H.
  destruct content as [reason|cls msg];
    [|inversion H; apply R_refl].
  destruct (negb (reason_is_quota reason)); [inversion H; apply R_refl|].
  unfold bind, gets, is_cancelled, switch_service_account in H.
  destruct (use_sa w) eqn:Hsa; [|inversion H; apply R_refl].
  destruct (sa_number env <=? sa_count w)%nat eqn:Hle;
    [inversion H; apply R_refl|].
  destruct (cancelled env w); [inversion H; apply R_tick|].
  eapply R_trans; [apply R_tick|].
  eapply R_trans; [|eapply Hs; exact H].
  apply R_rotate; [exact Hsa | apply Nat.leb_gt; exact Hle].
Qed.

Lemma respects_chunk_loop self a :
  respects R (self a) ->
  forall rs retries, respects R (chunk_loop env self a rs retries).
Proof.
  intros Hs; induction rs as [|r rest IH]; intros retries; simpl.
  - apply respects_bind; [apply respects_is_cancelled|intros c].
    apply respects_if; [apply respects_finish|intros w r w' H; discriminate H].
  - apply respects_bind; [apply respects_is_cancelled|intros c].
    apply respects_if; [apply respects_finish|].
    apply respects_bind.
    { apply respects_modify; intros w.
      eapply R_trans; [apply R_set_script | apply R_log; reflexivity]. }
    intros _; destruct r as [p|id|e].
    + apply respects_bind;
        [apply respects_modify; intros; apply R_set_status | intros _; apply IH].
    + apply respects_bind;
        [apply respects_modify; intros; apply R_set_status
        | intros _; apply respects_finish].
    + destruct e; try apply respects_raise.
      repeat apply respects_if; try apply IH.
      apply respects_on_json_error; exact Hs.
Qed.

Lemma respects_execute_create a : respects R (execute_create a).
Proof.
  intros w r w' H; unfold execute_create in H.
  destruct (script w) as [|[p|id|e] rest]; inversion H;
    (eapply R_trans; [apply R_set_script | apply R_log; reflexivity]).
Qed.

Lemma respects_upload_file_body self a :
  respects R (self a) -> respects R (upload_file_body env self a).
Proof.
  intros Hs; unfold upload_file_body.
  destruct (getsize env (file_path a) =? 0)%N.
  - apply respects_bind; [apply respects_execute_create|intros id].
    apply respects_bind;
      [apply respects_if; [apply respects_set_permission | apply respects_ret]
      |intros _].
    apply respects_bind; [apply respects_get_file|intros id'].
    apply respects_ret.
  - intros w r w' H; eapply respects_chunk_loop; eauto.
Qed.

Lemma respects_retry_loop {A} (f : M A) :
  respects R f -> forall remaining k, respects R (retry_loop remaining k f).
Proof.
  intros Hf; induction remaining as [|n IH]; intros k w r w' H; simpl in H;
    destruct (f w) as [[[v|e] w1]|] eqn:E; try discriminate.
  - inversion H; subst; eapply Hf; exact E.
  - inversion H; subst; eapply Hf; exact E.
  - inversion H; subst; eapply Hf; exact E.
  - apply IH in H.
    eapply R_trans; [eapply Hf; exact E|].
    eapply R_trans; [|exact H].
    apply R_log; reflexivity.
Qed.

Lemma respects_upload_file fuel :
  forall a, respects R (_upload_file env fuel a).
Proof.
  induction fuel as [|n IH]; intros a; simpl.
  - intros w r w' H; discriminate H.
  - unfold retry; apply respects_retry_loop, respects_upload_file_body, IH.
Qed.

Hypothesis R_set_total_files : forall n w, R w (set_total_files n w).
Hypothesis R_set_total_folders : forall n w, R w (set_total_folders n w).

Lemma respects_upload_dir_entry self_dir upload_file dir dest un ft item :
  (forall p items d, respects R (self_dir p items d)) ->
  (forall a, respects R (upload_file a)) ->
  respects R (upload_dir_entry env self_dir upload_file dir dest un ft item).
Proof.
  intros Hsd Huf; unfold upload_dir_entry; destruct item as [name|name items].
  - apply respects_if.
    + apply respects_bind; [apply Huf|intros _].
      apply respects_bind;
        [apply respects_modify; intros; apply R_set_total_files|intros _].
      apply respects_ret.
    + apply respects_bind;
        [apply respects_if; [apply respects_remove | apply respects_ret]
        |intros _; apply respects_ret].
  - apply respects_bind; [apply respects_create_directory|intros id].
    apply respects_bind; [apply Hsd|intros v].
    apply respects_bind;
      [apply respects_modify; intros; apply R_set_total_folders|intros _].
    apply respects_ret.
Qed.

Lemma respects_upload_dir_loop self_dir upload_file dir dest un ft :
  (forall p items d, respects R (self_dir p items d)) ->
  (forall a, respects R (upload_file a)) ->
  forall items new_id,
    respects R (upload_dir_loop env self_dir upload_file dir dest un ft
                  items new_id).
Proof.
  intros Hsd Huf; induction items as [|item rest IH]; intros new_id; simpl.
  - apply respects_ret.
  - apply respects_bind;
      [apply respects_upload_dir_entry; assumption|intros v].
    apply respects_bind; [apply respects_is_cancelled|intros c].
    apply respects_if; [apply respects_ret | apply IH].
Qed.

Lemma respects_upload_dir un ft fuel :
  forall dir items dest, respects R (_upload_dir env fuel dir items dest un ft).
Proof.
  induction fuel as [|n IH]; intros dir items dest; simpl.
  - intros w r w' H; discriminate H.
  - apply respects_bind; [apply respects_call; reflexivity|intros _].
    destruct items as [|item rest]; [apply respects_ret|].
    apply respects_upload_dir_loop; [intros; apply IH|].
    intros a; apply respects_upload_file.
Qed.

Lemma respects_upload_try fuel target path un ft :
  respects R (upload_try env fuel target path un ft).
Proof.
  unfold upload_try; destruct target as [name|name items].
  - apply respects_if; [apply respects_raise|].
    apply respects_bind; [apply respects_gets|intros dest].
    apply respects_bind; [apply respects_upload_file|intros lk].
    apply respects_bind; [apply respects_is_cancelled|intros c].
    apply respects_if; [apply respects_ret|].
    destruct lk; [apply respects_ret | apply respects_raise].
  - apply respects_bind; [apply respects_gets|intros dest].
    apply respects_bind; [apply respects_create_directory|intros id].
    apply respects_bind; [apply respects_upload_dir|intros res].
    destruct res; [|apply respects_raise].
    apply respects_bind; [apply respects_is_cancelled|intros c].
    apply respects_ret.
Qed.

End Frame.

(** ** What a whole upload keeps of the world *)

Lemma switches_app evs1 evs2 :
  switches (evs1 ++ evs2) = switches evs1 + switches evs2.
Proof. unfold switches; rewrite filter_app, length_app; reflexivity. Qed.

Lemma steady_refl env w : steady env w w.
Proof.
  repeat split; try reflexivity.
  exists []; rewrite app_nil_r; repeat split; auto.
Qed.

Lemma steady_trans env w1 w2 w3 :
  steady env w1 w2 -> steady env w2 w3 -> steady env w1 w3.
Proof.
  intros (Hu1 & Hd1 & Hc1 & evs1 & Ht1 & Hf1 & Hs1 & Hz1 & Hb1)
         (Hu2 & Hd2 & Hc2 & evs2 & Ht2 & Hf2 & Hs2 & Hz2 & Hb2).
  split; [congruence|]. split; [congruence|]. split; [lia|].
  exists (evs1 ++ evs2)%list.
  split; [rewrite Ht2, Ht1, app_assoc; reflexivity|].
  split; [rewrite forallb_app, Hf1, Hf2; reflexivity|].
  split; [rewrite switches_app; lia|].
  split.
  - intros H; rewrite switches_app, (Hz1 H), Hz2; [reflexivity | congruence].
  - intros H; auto.
Qed.

(** A step that logs nothing and leaves the identity alone. *)
Lemma steady_quiet env w w' :
  use_sa w' = use_sa w -> up_dest w' = up_dest w -> clock w <= clock w' ->
  trace w' = trace w -> sa_count w' = sa_count w ->
  steady env w w'.
Proof.
  intros Hu Hd Hc Ht Hs; split; [exact Hu|]. split; [exact Hd|].
  split; [exact Hc|].
  exists []; rewrite app_nil_r.
  split; [exact Ht|]. split; [reflexivity|].
  split; [unfold switches; simpl; lia|]. split; [reflexivity | intros; lia].
Qed.

Lemma steady_log env ev w : plain_event ev = true -> steady env w (log ev w).
Proof.
  intros Hp; split; [reflexivity|]. split; [reflexivity|].
  split; [simpl; lia|].
  exists [ev]; split; [reflexivity|].
  assert (Hs : is_switch ev = false) by (destruct ev; try reflexivity; discriminate Hp).
  split; [simpl; unfold transfer_event; rewrite Hp; reflexivity|].
  split; [unfold switches; simpl; rewrite Hs; simpl; lia|].
  split; [intros _; unfold switches; simpl; rewrite Hs; reflexivity|].
  intros H; exact H.
Qed.

Lemma steady_rotate env w :
  use_sa w = true -> sa_count w < sa_number env -> steady env w (rotate w).
Proof.
  intros Hu Hlt; split; [reflexivity|]. split; [reflexivity|].
  split; [simpl; lia|].
  exists [EvSwitchServiceAccount]; split; [reflexivity|].
  split; [reflexivity|]. split; [unfold switches; simpl; lia|].
  split; [intros H; congruence | intros _; simpl; lia].
Qed.

Lemma steady_tick env w : steady env w (tick w).
Proof. apply steady_quiet; simpl; try reflexivity; lia. Qed.

Lemma steady_set_script env rs w : steady env w (set_script rs w).
Proof. apply steady_quiet; simpl; try reflexivity; lia. Qed.

Lemma steady_set_status env s w : steady env w (set_status s w).
Proof. apply steady_quiet; simpl; try reflexivity; lia. Qed.

Lemma steady_set_file_processed_bytes env n w :
  steady env w (set_file_processed_bytes n w).
Proof. apply steady_quiet; simpl; try reflexivity; lia. Qed.

Lemma steady_set_total_files env n w : steady env w (set_total_files n w).
Proof. apply steady_quiet; simpl; try reflexivity; lia. Qed.

Lemma steady_set_total_folders env n w : steady env w (set_total_folders n w).
Proof. apply steady_quiet; simpl; try reflexivity; lia. Qed.

(** The decorated [_upload_file] keeps the world steady. *)
Lemma steady_upload_file env fuel a :
  respects (steady env) (_upload_file env fuel a).
Proof.
  exact (respects_upload_file env (steady env) (steady_refl env)
           (steady_trans env) (steady_tick env) (steady_log env)
           (steady_set_script env) (steady_set_status env)
           (steady_set_file_processed_bytes env) (steady_rotate env) fuel a).
Qed.

Lemma steady_upload_dir env un ft fuel dir items dest :
  respects (steady env) (_upload_dir env fuel dir items dest un ft).
Proof.
  exact (respects_upload_dir env (steady env) (steady_refl env)
           (steady_trans env) (steady_tick env) (steady_log env)
           (steady_set_script env) (steady_set_status env)
           (steady_set_file_processed_bytes env) (steady_rotate env)
           (steady_set_total_files env) (steady_set_total_folders env)
           un ft fuel dir items dest).
Qed.

Lemma steady_upload_try env fuel target path un ft :
  respects (steady env) (upload_try env fuel target path un ft).
Proof.
  exact (respects_upload_try env (steady env) (steady_refl env)
           (steady_trans env) (steady_tick env) (steady_log env)
           (steady_set_script env) (steady_set_status env)
           (steady_set_file_processed_bytes env) (steady_rotate env)
           (steady_set_total_files env) (steady_set_total_folders env)
           fuel target path un ft).
Qed.

(** ** The orchestrator around the transfer *)

Lemma user_setting_keeps w :
  trace (user_setting w) = trace w
  /\ clock (user_setting w) = clock w
  /\ sa_count (user_setting w) = sa_count w
  /\ total_files (user_setting w) = total_files w
  /\ total_folders (user_setting w) = total_folders w
  /\ script (user_setting w) = script w.
Proof.
  unfold user_setting.
  destruct (PyStr.startswith (up_dest w) "mtp:");
    [|destruct (PyStr.startswith (up_dest w) "tp:");
      [|destruct (PyStr.startswith (up_dest w) "sa:")]];
    repeat split; reflexivity.
Qed.

(** What the [finally] clause does to the world: it stops the timer and,
    at most, deletes one remote object after that. *)
Lemma upload_finally_world env r j :
  (trace (world (snd (upload_finally env r j)))
   = (trace (world j) ++ [EvUpdaterCancel])%list
   \/ exists d,
        trace (world (snd (upload_finally env r j)))
        = (trace (world j) ++ [EvUpdaterCancel; EvDeleteRemote d])%list)
  /\ sa_count (world (snd (upload_finally env r j))) = sa_count (world j)
  /\ use_sa (world (snd (upload_finally env r j))) = use_sa (world j)
  /\ is_errored (snd (upload_finally env r j)) = is_errored j.
Proof.
  unfold upload_finally.
  destruct (cancelled env (log EvUpdaterCancel (world j)) && negb (is_errored j))%bool.
  - destruct r as [l|e]; [|simpl; auto 6].
    destruct (String.eqb (l_mime_type l) "Folder"); [|simpl; auto 6].
    destruct (l_dir_id l) as [d|]; [|simpl; auto 6].
    simpl; split; [right; exists d; rewrite <- app_assoc; reflexivity | auto].
  - destruct (is_errored j); [simpl; auto 6|].
    destruct r as [l|e]; [|simpl; auto 6].
    destruct (link l); simpl; auto 6.
Qed.

(** The pieces of a run of [upload]. *)
Lemma upload_inv env fuel target path un ft w out j' :
  upload env fuel target path un ft w = Some (out, j') ->
  exists r w1,
    upload_try env fuel target path un ft (upload_begin w) = Some (r, w1)
    /\ steady env (upload_begin w) w1
    /\ (out, j') = upload_finally env r (upload_except env r w1).
Proof.
  unfold upload, upload_guarded.
  destruct (upload_try env fuel target path un ft (upload_begin w))
    as [[r w1]|] eqn:E; [|discriminate].
  intros H; inversion H as [H1]; exists r, w1.
  split; [reflexivity|]. split; [|reflexivity].
  exact (steady_upload_try _ _ _ _ _ _ _ _ _ E).
Qed.

Lemma upload_except_world env r w :
  trace (world (upload_except env r w)) = trace w
  /\ sa_count (world (upload_except env r w)) = sa_count w
  /\ use_sa (world (upload_except env r w)) = use_sa w.
Proof. destruct r; repeat split; reflexivity. Qed.

(** The log and the identity count of a whole run of [upload]. *)
Lemma upload_log_shape env fuel target path un ft w out j' :
  upload env fuel target path un ft w = Some (out, j') ->
  exists mid tail,
    trace (world j')
    = (trace w ++ [EvAuthorize; EvUpdaterStart] ++ mid
       ++ [EvUpdaterCancel] ++ tail)%list
    /\ forallb transfer_event mid = true
    /\ (tail = [] \/ exists d, tail = [EvDeleteRemote d])
    /\ sa_count (world j') = sa_count w + switches mid
    /\ (use_sa (user_setting w) = false -> switches mid = 0)
    /\ (sa_count w <= sa_number env -> sa_count (world j') <= sa_number env).
Proof.
  intros H.
  destruct (upload_inv _ _ _ _ _ _ _ _ _ H)
    as (r & w1 & _ & (_ & _ & _ & mid & Ht & Hf & Hs & Hz & Hb) & Hfin).
  assert (Hj : j' = snd (upload_finally env r (upload_except env r w1)))
    by (rewrite <- Hfin; reflexivity).
  destruct (upload_finally_world env r (upload_except env r w1)) as (Hw & Hc & _).
  destruct (upload_except_world env r w1) as (He & Hec & _).
  rewrite <- Hj in Hw, Hc; rewrite He, Ht in Hw; rewrite Hec in Hc.
  assert (Hb0 : trace (upload_begin w)
                = (trace w ++ [EvAuthorize; EvUpdaterStart])%list).
  { unfold upload_begin; simpl.
    destruct (user_setting_keeps w) as [-> _].
    rewrite <- app_assoc; reflexivity. }
  assert (Hs0 : sa_count (upload_begin w) = sa_count w).
  { unfold upload_begin; simpl.
    destruct (user_setting_keeps w) as (_ & _ & -> & _); reflexivity. }
  rewrite Hb0 in Hw; rewrite Hs0 in Hs, Hb.
  destruct Hw as [Hw | [d Hw]];
    [exists mid, [] | exists mid, [EvDeleteRemote d]];
    (split; [rewrite Hw, <- !app_assoc; reflexivity|]);
    (split; [exact Hf|]); (split; [eauto|]);
    (split; [lia|]); (split; [exact Hz | intros; lia]).
Qed.

(** X4.  The progress timer brackets the transfer: in every run of [upload]
    the log reads, after what was there, the authorization and the start
    of the timer, then calls of the walker and the transfer client only,
    then the stop of the timer, then at most the deletion of one remote
    object. *)
Theorem upload_timer_brackets_transfer :
  forall env fuel target path un ft w out j',
    upload env fuel target path un ft w = Some (out, j') ->
    exists mid tail,
      trace (world j')
      = (trace w ++ [EvAuthorize; EvUpdaterStart] ++ mid
         ++ [EvUpdaterCancel] ++ tail)%list
      /\ forallb transfer_event mid = true
      /\ (tail = [] \/ exists d, tail = [EvDeleteRemote d]).
Proof.
  intros env fuel target path un ft w out j' H.
  destruct (upload_log_shape _ _ _ _ _ _ _ _ _ H)
    as (mid & tail & Ht & Hf & Hl & _).
  exists mid, tail; auto.
Qed.

Lemma upload_timer_brackets_transfer_witness :
  exists j' mid tail,
    upload (sample_env None false) 1 (File "a.txt") "a.txt" [] []
      (sample_world false [Progress 100; Finished "f1"])
    = Some (Return tt, j')
    /\ trace (world j')
       = ([EvAuthorize; EvUpdaterStart] ++ mid ++ [EvUpdaterCancel] ++ tail)%list
    /\ forallb transfer_event mid = true.
Proof.
  eassert (H : upload (sample_env None false) 1 (File "a.txt") "a.txt" [] []
                 (sample_world false [Progress 100; Finished "f1"])
               = Some (Return tt, _)) by (vm_compute; reflexivity).
  destruct (upload_timer_brackets_transfer _ _ _ _ _ _ _ _ _ H)
    as (mid & tail & Ht & Hf & _).
  eexists; exists mid, tail.
  split; [exact H | split; [exact Ht | exact Hf]].
Defined.

(** X3.  Rotation within a whole upload.  The count of identities used at the
    end is the count at the start plus the rotations logged between the
    start and the stop of the timer, and a count that starts within the
    pool ends within it. *)
Theorem upload_rotation_accounting :
  forall env fuel target path un ft w out j',
    upload env fuel target path un ft w = Some (out, j') ->
    exists mid tail,
      trace (world j')
      = (trace w ++ [EvAuthorize; EvUpdaterStart] ++ mid
         ++ [EvUpdaterCancel] ++ tail)%list
      /\ sa_count (world j') = sa_count w + switches mid
      /\ (sa_count w <= sa_number env -> sa_count (world j') <= sa_number env).
Proof.
  intros env fuel target path un ft w out j' H.
  destruct (upload_log_shape _ _ _ _ _ _ _ _ _ H)
    as (mid & tail & Ht & _ & _ & Hs & _ & Hb).
  exists mid, tail; auto.
Qed.

Lemma upload_rotation_accounting_witness :
  exists j',
    upload (sample_env None false) 2 (File "a.txt") "a.txt" [] []
      (mkWorld 0 [] [Progress 100; Failure quota_403; Finished "f1"]
               false "sa:root" 1 None 0%N 0 0)
    = Some (Return tt, j')
    /\ sa_count (world j') <= 2.
Proof.
  eassert (H : upload (sample_env None false) 2 (File "a.txt") "a.txt" [] []
                 (mkWorld 0 [] [Progress 100; Failure quota_403; Finished "f1"]
                          false "sa:root" 1 None 0%N 0 0)
               = Some (Return tt, _)) by (vm_compute; reflexivity).
  destruct (upload_rotation_accounting _ _ _ _ _ _ _ _ _ H)
    as (mid & tail & _ & _ & Hb).
  eexists; split; [exact H | apply Hb; simpl; lia].
Defined.

Lemma switches_zero evs :
  switches evs = 0 -> ~ In EvSwitchServiceAccount evs.
Proof.
  unfold switches; induction evs as [|ev evs IH]; simpl; [tauto|].
  destruct ev; simpl; try discriminate; intros H [E|E];
    try discriminate E; apply IH; assumption.
Qed.

(** X2.  A destination given with the prefix [mtp:] or [tp:] selects
    single-identity mode, and the whole upload then never rotates: the
    count of identities used is as it was and no rotation is logged. *)
Theorem upload_token_destination_never_rotates :
  forall env fuel target path un ft w out j',
    PyStr.startswith (up_dest w) "mtp:" = true
    \/ PyStr.startswith (up_dest w) "tp:" = true ->
    upload env fuel target path un ft w = Some (out, j') ->
    sa_count (world j') = sa_count w
    /\ exists evs,
         trace (world j') = (trace w ++ evs)%list
         /\ ~ In EvSwitchServiceAccount evs.
Proof.
  intros env fuel target path un ft w out j' Hp H.
  assert (Hu : use_sa (user_setting w) = false).
  { unfold user_setting.
    destruct (PyStr.startswith (up_dest w) "mtp:"); [reflexivity|].
    destruct Hp as [Hp|Hp]; [discriminate Hp | rewrite Hp; reflexivity]. }
  destruct (upload_log_shape _ _ _ _ _ _ _ _ _ H)
    as (mid & tail & Ht & _ & Hl & Hs & Hz & _).
  specialize (Hz Hu); split; [lia|].
  exists ([EvAuthorize; EvUpdaterStart] ++ mid ++ [EvUpdaterCancel] ++ tail)%list.
  split; [exact Ht|].
  intros Hin; simpl in Hin.
  destruct Hin as [E|[E|Hin]]; try discriminate E.
  apply in_app_or in Hin; destruct Hin as [Hin|Hin];
    [exact (switches_zero _ Hz Hin)|].
  simpl in Hin; destruct Hin as [E|Hin]; [discriminate E|].
  destruct Hl as [->|[d ->]]; simpl in Hin; [tauto|].
  destruct Hin as [E|[]]; discriminate E.
Qed.

Lemma upload_token_destination_never_rotates_witness :
  exists j',
    upload (sample_env None false) 1 (File "a.txt") "a.txt" [] []
      (mkWorld 0 [] [Failure quota_403; Failure quota_403; Failure quota_403]
               true "tp:root" 0 None 0%N 0 0)
    = Some (Return tt, j')
    /\ sa_count (world j') = 0.
Proof.
  eassert (H : upload (sample_env None false) 1 (File "a.txt") "a.txt" [] []
                 (mkWorld 0 []
                    [Failure quota_403; Failure quota_403; Failure quota_403]
                    true "tp:root" 0 None 0%N 0 0)
               = Some (Return tt, _)) by (vm_compute; reflexivity).
  pose proof (fun Hp => upload_token_destination_never_rotates
                          _ _ _ _ _ _ _ _ _ Hp H) as K.
  destruct (K (or_intror eq_refl)) as [Hs _].
  eexists; split; [exact H | exact Hs].
Defined.

(** ** What the owning job is told *)

Lemma sanitize_bracket_free s : bracket_free (sanitize s) = true.
Proof.
  unfold sanitize; induction s as [|c s IH]; [reflexivity|].
  simpl PyStr.remove_chars at 2.
  destruct (Ascii.eqb c ">"%char) eqn:Hgt; simpl existsb; cbv iota.
  - exact IH.
  - simpl PyStr.remove_chars.
    destruct (Ascii.eqb c "<"%char) eqn:Hlt; simpl; [exact IH|].
    rewrite Hlt, Hgt; simpl; exact IH.
Qed.

(** Text without angle brackets goes through unchanged. *)
Lemma sanitize_fixes_bracket_free s : bracket_free s = true -> sanitize s = s.
Proof.
  unfold sanitize; induction s as [|c s IH]; [reflexivity|].
  simpl; intros H.
  apply andb_true_iff in H; destruct H as [H Hs].
  apply andb_true_iff in H; destruct H as [Hlt Hgt].
  apply negb_true_iff in Hlt, Hgt.
  rewrite Hgt; simpl; rewrite Hlt; simpl; rewrite (IH Hs); reflexivity.
Qed.

(** X5.  Every run of [upload] tells the owning job at most one thing.  A job
    that erred is told one error, in a text free of angle brackets, and no
    completion; a job that did not err is told nothing or one
    completion. *)
Theorem upload_calls_back_at_most_once :
  forall env fuel target path un ft w out j',
    upload env fuel target path un ft w = Some (out, j') ->
    (is_errored j' = true
     /\ exists m, callbacks j' = [OnUploadError m] /\ bracket_free m = true)
    \/ (is_errored j' = false
        /\ (callbacks j' = []
            \/ exists lk files folders mt id,
                 callbacks j' = [OnUploadComplete lk files folders mt id]
                 /\ out = Return tt)).
Proof.
  intros env fuel target path un ft w out j' H.
  destruct (upload_inv _ _ _ _ _ _ _ _ _ H) as (r & w1 & _ & _ & Hfin).
  destruct r as [l|e]; unfold upload_except, upload_finally in Hfin;
    simpl in Hfin.
  - right.
    destruct (cancelled env (log EvUpdaterCancel w1)); simpl in Hfin.
    + destruct (String.eqb (l_mime_type l) "Folder");
        [destruct (l_dir_id l)|]; inversion Hfin; subst; simpl; auto.
    + destruct (link l) as [lk|]; inversion Hfin; subst; simpl;
        [|auto].
      split; [reflexivity|]; right; repeat eexists.
  - left. rewrite andb_false_r in Hfin.
    inversion Hfin; subst; simpl; split; [reflexivity|].
    eexists; split; [reflexivity | apply sanitize_bracket_free].
Qed.

Lemma upload_calls_back_at_most_once_witness :
  exists j' m,
    upload (sample_env None false) 1 (File "a.txt") "a.txt" [] []
      (sample_world false
         [Failure (forbidden_403 "<first>"); Failure (forbidden_403 "<second>");
          Failure (forbidden_403 "<third>")])
    = Some (Return tt, j')
    /\ callbacks j' = [OnUploadError m] /\ bracket_free m = true.
Proof.
  eassert (H : upload (sample_env None false) 1 (File "a.txt") "a.txt" [] []
                 (sample_world false
                    [Failure (forbidden_403 "<first>");
                     Failure (forbidden_403 "<second>");
                     Failure (forbidden_403 "<third>")])
               = Some (Return tt, _)) by (vm_compute; reflexivity).
  destruct (upload_calls_back_at_most_once _ _ _ _ _ _ _ _ _ H)
    as [(_ & m & Hc & Hb) | (He & _)]; [|discriminate He].
  eexists; exists m; split; [exact H | split; [exact Hc | exact Hb]].
Defined.

(** ** What the transfer client and the walker return and raise *)

Lemma finish_returns_none env a response w w' :
  in_dir a = false ->
  finish env a response w = Some (Return None, w') ->
  cancelled env w' = true.
Proof.
  intros Hd; unfold finish, bind, is_cancelled.
  destruct (cancelled env w) eqn:Hc.
  - intros H; inversion H; subst; apply cancelled_tick; exact Hc.
  - rewrite Hd; cbv beta iota.
    unfold suppress, remove, modify, set_permission, call, subscript_id,
      get_file, ret, raise.
    destruct (negb (seed env) || new_dir env
              || PyStr.mem (file_path a) (ft_delete a))%bool;
      [destruct (remove_fails env (file_path a))|];
      destruct (negb (IS_TEAM_DRIVE env)); destruct response;
      simpl;
      try match goal with
          | |- context [get_error ?e ?i ?c] => destruct (get_error e i c)
          end;
      intros H; discriminate H.
Qed.

Lemma on_json_error_returns_none env self a err content w w' :
  (forall w0 w0', self a w0 = Some (Return None, w0') -> cancelled env w0' = true) ->
  on_json_error env self a err content w = Some (Return None, w') ->
  cancelled env w' = true.
Proof.
  intros Hs; unfold on_json_error.
  destruct content as [reason|cls msg]; [|discriminate].
  destruct (negb (reason_is_quota reason)); [discriminate|].
  unfold bind, gets, is_cancelled, switch_service_account.
  destruct (use_sa w); [|discriminate].
  destruct (sa_number env <=? sa_count w)%nat; [discriminate|].
  destruct (cancelled env w) eqn:Hc.
  - intros H; inversion H; subst; apply cancelled_tick; exact Hc.
  - apply Hs.
Qed.

Lemma chunk_loop_returns_none env self a :
  in_dir a = false ->
  (forall w0 w0', self a w0 = Some (Return None, w0') -> cancelled env w0' = true) ->
  forall rs retries w w',
    chunk_loop env self a rs retries w = Some (Return None, w') ->
    cancelled env w' = true.
Proof.
  intros Hd Hs; induction rs as [|r rest IH]; intros retries w w' H;
    simpl in H; unfold bind at 1, is_cancelled at 1 in H;
    destruct (cancelled env w) eqn:Hc;
    try (eapply finish_returns_none; eassumption); [discriminate|].
  unfold bind at 1, modify at 1 in H.
  destruct r as [p|id|e].
  - unfold bind at 1, modify at 1 in H; eapply IH; exact H.
  - unfold bind at 1, modify at 1 in H; eapply finish_returns_none; eassumption.
  - destruct e; try discriminate.
    destruct (retried_in_place status0 retries); [eapply IH; exact H|].
    destruct (PyStr.startswith content_type "application/json");
      [|eapply IH; exact H].
    eapply on_json_error_returns_none; eassumption.
Qed.

Lemma upload_file_body_returns_none env self a w w' :
  in_dir a = false ->
  (forall w0 w0', self a w0 = Some (Return None, w0') -> cancelled env w0' = true) ->
  upload_file_body env self a w = Some (Return None, w') ->
  cancelled env w' = true.
Proof.
  intros Hd Hs; unfold upload_file_body.
  destruct (getsize env (file_path a) =? 0)%N.
  - unfold bind, execute_create, set_permission, call, get_file, ret.
    destruct (script w) as [|[p|id|e] rest]; try discriminate.
    destruct (negb (IS_TEAM_DRIVE env)); simpl;
      match goal with
      | |- context [get_error ?e ?i ?c] => destruct (get_error e i c)
      end; discriminate.
  - apply chunk_loop_returns_none; assumption.
Qed.

Lemma retry_loop_returns {A} (f : M A) remaining :
  forall k w v w',
    retry_loop remaining k f w = Some (Return v, w') ->
    exists w0, f w0 = Some (Return v, w').
Proof.
  induction remaining as [|n IH]; intros k w v w' H; simpl in H;
    destruct (f w) as [[[v0|e0] w0]|] eqn:E; try discriminate.
  - inversion H; subst; exists w; exact E.
  - inversion H; subst; exists w; exact E.
  - eapply IH; exact H.
Qed.

Lemma upload_file_no_link_means_cancelled_aux env :
  forall fuel a w w',
    _upload_file env fuel a w = Some (Return None, w') ->
    in_dir a = false ->
    cancelled env w' = true.
Proof.
  induction fuel as [|n IH]; intros a w w' H Hd; [discriminate H|].
  simpl in H; unfold retry in H.
  destruct (retry_loop_returns _ _ _ _ _ _ H) as [w0 H0].
  eapply upload_file_body_returns_none; [exact Hd | | exact H0].
  intros w1 w1' H1; exact (IH _ _ _ H1 Hd).
Qed.

(** X11.  A top-level call of [_upload_file] returns no link only when the job
    is cancelled: the flag reads set in the world it returns in. *)
Theorem upload_file_no_link_means_cancelled :
  forall env fuel a w w',
    in_dir a = false ->
    _upload_file env fuel a w = Some (Return None, w') ->
    cancelled env w' = true.
Proof.
  intros env fuel a w w' Hd H.
  exact (upload_file_no_link_means_cancelled_aux env fuel a w w' H Hd).
Qed.

Lemma upload_file_no_link_means_cancelled_witness :
  exists w',
    _upload_file (sample_env (Some 1) false) 1 (sample_args "a.txt" false)
      (sample_world false [Progress 100; Finished "f1"])
    = Some (Return None, w')
    /\ cancelled (sample_env (Some 1) false) w' = true.
Proof.
  eassert (H : _upload_file (sample_env (Some 1) false) 1
                 (sample_args "a.txt" false)
                 (sample_world false [Progress 100; Finished "f1"])
               = Some (Return None, _)) by (vm_compute; reflexivity).
  eexists; split; [exact H|].
  eapply upload_file_no_link_means_cancelled; [|exact H]; reflexivity.
Defined.

Lemma upload_dir_loop_returns_some env self_dir upload_file dir d un ft :
  (forall p items id w v w',
      self_dir p items (Some id) w = Some (Return v, w') -> v <> None) ->
  forall items new_id w v w',
    (items = [] -> new_id <> None) ->
    upload_dir_loop env self_dir upload_file dir (Some d) un ft items new_id w
    = Some (Return v, w') ->
    v <> None.
Proof.
  intros Hsd; induction items as [|item rest IH]; intros new_id w v w' Hn H.
  - inversion H; subst; apply Hn; reflexivity.
  - simpl in H; unfold bind at 1 in H.
    destruct (upload_dir_entry env self_dir upload_file dir (Some d) un ft
                item w) as [[[v1|e1] w1]|] eqn:E; try discriminate.
    assert (Hv1 : v1 <> None).
    { destruct item as [name|name items].
      - destruct (wanted env un (PyStr.join dir name) name) eqn:Hw.
        + rewrite upload_dir_entry_wanted in E by exact Hw.
          unfold bind, modify, ret in E.
          destruct (upload_file _ w) as [[[v2|e2] w2]|]; try discriminate.
          inversion E; discriminate.
        + rewrite upload_dir_entry_excluded in E by exact Hw.
          unfold bind, ret, remove in E.
          destruct (negb (seed env) || new_dir env)%bool;
            [destruct (remove_fails env (PyStr.join dir name))|];
            try discriminate; inversion E; discriminate.
      - unfold upload_dir_entry in E.
        unfold bind at 1, create_directory at 1 in E.
        unfold bind, modify, ret in E.
        destruct (self_dir _ items _ _) as [[[v2|e2] w2]|] eqn:Es;
          try discriminate.
        inversion E; subst; eapply Hsd; exact Es. }
    unfold bind, is_cancelled in H.
    destruct (cancelled env w1).
    + inversion H; subst; exact Hv1.
    + eapply IH; [|exact H]. intros _; exact Hv1.
Qed.

Lemma upload_dir_returns_some_aux env un ft :
  forall fuel dir items d w v w',
    _upload_dir env fuel dir items (Some d) un ft w = Some (Return v, w') ->
    v <> None.
Proof.
  induction fuel as [|n IH]; intros dir items d w v w' H;
    [discriminate H|].
  simpl in H; unfold bind at 1, call at 1 in H.
  destruct items as [|item rest]; [inversion H; discriminate|].
  eapply upload_dir_loop_returns_some; [| |exact H].
  - intros p items id w0 v0 w0'; apply IH.
  - intros E; discriminate E.
Qed.







(** X7.  The two exceptions that the [try] block of [upload] raises for a
    missing link and for a missing walk result are never raised.  An
    exception that leaves the block is the exclusion of a single-file
    target by its extension, or it is the exception that the block's call
    of [_upload_file], for a file, or of [_upload_dir], for a directory,
    has raised. *)
Theorem upload_try_raises_only :
  forall env fuel target path un ft w e w',
    upload_try env fuel target path un ft w = Some (Raise e, w') ->
    match target with
    | File _ =>
        (PyStr.endswith_any (PyStr.lower path) (extension_filter env) = true
         /\ e = PyError "Exception"
                  "This file extension is excluded by extension filter!")
        \/ _upload_file env fuel
             (mkArgs path (listener_name env) (get_mime_type env path)
                     (Some (up_dest w)) ft false) w
           = Some (Raise e, w')
    | Dir _ items =>
        _upload_dir env fuel path items
          (Some (new_folder_id env (clock w))) un ft
          (log (EvCreateDirectory (top_folder_name env) (Some (up_dest w))
                  (new_folder_id env (clock w))) w)
        = Some (Raise e, w')
    end.
Proof.
  intros env fuel target path un ft w e w' H; unfold upload_try in H.
  destruct target as [name|name items].
  - destruct (PyStr.endswith_any (PyStr.lower path) (extension_filter env));
      [inversion H; left; split; reflexivity|].
    right; unfold bind at 1, gets at 1 in H; unfold bind at 1 in H.
    destruct (_upload_file env fuel _ w) as [[[lk|e1] w1]|] eqn:Ef;
      try discriminate.
    + unfold bind, is_cancelled in H.
      destruct (cancelled env w1) eqn:Hc; [discriminate|].
      destruct lk as [l|]; [discriminate|].
      apply upload_file_no_link_means_cancelled_aux in Ef; [|reflexivity].
      congruence.
    + inversion H; subst; reflexivity.
  - unfold bind at 1, gets at 1 in H.
    unfold bind at 1, create_directory at 1 in H.
    unfold bind at 1 in H.
    destruct (_upload_dir env fuel path items _ un ft _)
      as [[[res|e1] w1]|] eqn:Ed; try discriminate.
    + destruct res as [x|].
      * unfold bind, is_cancelled in H; discriminate H.
      * exfalso; exact (upload_dir_returns_some_aux _ _ _ _ _ _ _ _ _ _ Ed eq_refl).
    + inversion H; subst; reflexivity.
Qed.

Lemma upload_try_raises_only_witness :
  exists e w',
    upload_try (sample_env None false) 1 (File "a.txt") "a.txt" [] []
      (sample_world false
         [Failure (forbidden_403 "a"); Failure (forbidden_403 "b");
          Failure (forbidden_403 "c")])
    = Some (Raise e, w')
    /\ _upload_file (sample_env None false) 1
         (mkArgs "a.txt" "a.txt" "text/plain" (Some "root") [] false)
         (sample_world false
            [Failure (forbidden_403 "a"); Failure (forbidden_403 "b");
             Failure (forbidden_403 "c")])
       = Some (Raise e, w').
Proof.
  eassert (H : upload_try (sample_env None false) 1 (File "a.txt") "a.txt" [] []
                 (sample_world false
                    [Failure (forbidden_403 "a"); Failure (forbidden_403 "b");
                     Failure (forbidden_403 "c")])
               = Some (Raise _, _)) by (vm_compute; reflexivity).
  destruct (upload_try_raises_only _ _ _ _ _ _ _ _ _ H) as [[Hf _]|Hw];
    [discriminate Hf|].
  eexists; eexists; split; [exact H | exact Hw].
Defined.

(** ** Sessions *)

Lemma finish_session env a id w :
  cancelled env w = false ->
  in_dir a = true \/ (forall c, get_error env id c = None) ->
  exists w',
    finish env a (Some id) w
    = Some (Return (if in_dir a then None
                    else Some (G_DRIVE_BASE_DOWNLOAD_URL env id)), w')
    /\ trace w' = (trace w ++ closing_calls env a id)%list
    /\ script w' = script w
    /\ status w' = status w
    /\ counters_kept w w'.
Proof.
  intros Hc Hg.
  assert (Hg' : in_dir a = false -> forall c, get_error env id c = None)
    by (intros E; destruct Hg as [Hg|Hg]; [congruence | exact Hg]).
  clear Hg; revert Hg'.
  unfold finish, bind, is_cancelled; rewrite Hc; cbv beta iota.
  unfold suppress, remove, modify, set_permission, call, subscript_id,
    get_file, ret, closing_calls.
  destruct (negb (seed env) || new_dir env
            || PyStr.mem (file_path a) (ft_delete a))%bool;
    [destruct (remove_fails env (file_path a))|];
    destruct (IS_TEAM_DRIVE env); destruct (in_dir a); intros Hg'; simpl;
    rewrite ?(Hg' eq_refl);
    eexists; (split; [reflexivity|]); simpl;
    repeat rewrite <- app_assoc; try rewrite app_nil_r;
    repeat split; reflexivity.
Qed.

(** The look-up of line 268 comes after the removal of line 261: when it
    fails, its exception leaves the method with the closing calls made. *)
Lemma finish_lookup_fails env a id w e :
  cancelled env w = false ->
  in_dir a = false ->
  (forall c, get_error env id c = Some e) ->
  exists w',
    finish env a (Some id) w = Some (Raise e, w')
    /\ trace w' = (trace w ++ closing_calls env a id)%list.
Proof.
  intros Hc Hd Hg.
  unfold finish, bind, is_cancelled; rewrite Hc; cbv beta iota.
  unfold suppress, remove, modify, set_permission, call, subscript_id,
    get_file, ret, closing_calls.
  rewrite Hd.
  destruct (negb (seed env) || new_dir env
            || PyStr.mem (file_path a) (ft_delete a))%bool;
    [destruct (remove_fails env (file_path a))|];
    destruct (IS_TEAM_DRIVE env); simpl;
    rewrite Hg;
    eexists; (split; [reflexivity|]); simpl;
    repeat rewrite <- app_assoc; reflexivity.
Qed.

Lemma chunk_loop_progress_run env self a id rest retries :
  cancel_at env = None ->
  forall ps w,
    exists W,
      chunk_loop env self a (map Progress ps ++ Finished id :: rest) retries w
      = finish env a (Some id) W
      /\ trace W
         = (trace w ++ repeat (EvNextChunk (file_path a)) (S (List.length ps)))%list
      /\ script W = rest
      /\ status W = None
      /\ counters_kept w W.
Proof.
  intros Hnc; induction ps as [|p ps IH]; intros w.
  - simpl app; rewrite chunk_loop_finished by (apply cancelled_never; exact Hnc).
    eexists; split; [reflexivity|]; repeat split; reflexivity.
  - simpl map; simpl app.
    rewrite chunk_loop_progress by (apply cancelled_never; exact Hnc).
    destruct (IH (set_status (Some p)
                    (after_request a (map Progress ps ++ Finished id :: rest) w)))
      as (W & HW & Ht & Hs & Hst & Hk).
    exists W; split; [exact HW|].
    split; [rewrite Ht; simpl; rewrite <- app_assoc; reflexivity|].
    split; [exact Hs|]. split; [exact Hst|].
    destruct Hk as [K1 K2]; split; [exact K1 | exact K2].
Qed.

(** X12.  A session without failure or cancellation.  When the job is never
    cancelled, the service answers the chunks of a file with content by
    as many progress replies as it likes and then the finalized object,
    and, for a top-level file, the look-up of that object does not fail,
    the decorated [_upload_file] returns on its first attempt: it has made
    one request per reply, then the closing calls, each once; it has
    consumed exactly those replies; and it returns the link of the object
    for a top-level file, nothing for a nested one. *)
Theorem upload_file_clean_session :
  forall env fuel a ps id rest w,
    cancel_at env = None ->
    getsize env (file_path a) <> 0%N ->
    in_dir a = true \/ (forall c, get_error env id c = None) ->
    script w = (map Progress ps ++ Finished id :: rest)%list ->
    exists w',
      _upload_file env (S fuel) a w
      = Some (Return (if in_dir a then None
                      else Some (G_DRIVE_BASE_DOWNLOAD_URL env id)), w')
      /\ trace w'
         = (trace w
            ++ repeat (EvNextChunk (file_path a)) (S (List.length ps))
            ++ closing_calls env a id)%list
      /\ script w' = rest
      /\ counters_kept w w'.
Proof.
  intros env fuel a ps id rest w Hnc Hsz Hg Hs.
  destruct (chunk_loop_progress_run env (_upload_file env fuel) a id rest 0
              Hnc ps w) as (W & HW & Ht & Hsc & _ & Hk).
  destruct (finish_session env a id W (cancelled_never _ _ Hnc) Hg)
    as (w' & Hf & Ht' & Hsc' & _ & Hk').
  exists w'; split.
  - simpl; apply retry_first_attempt_returns.
    unfold upload_file_body.
    apply N.eqb_neq in Hsz; rewrite Hsz, Hs, HW; exact Hf.
  - split; [rewrite Ht', Ht, <- app_assoc; reflexivity|].
    split; [congruence|].
    eapply counters_kept_trans; eassumption.
Qed.

Lemma upload_file_clean_session_witness :
  exists w',
    _upload_file (sample_env None false) 1 (sample_args "a.txt" false)
      (sample_world false [Progress 100; Progress 200; Finished "f1"])
    = Some (Return (Some "file-base/f1"), w')
    /\ trace w'
       = [EvNextChunk "a.txt"; EvNextChunk "a.txt"; EvNextChunk "a.txt";
          EvRemove "a.txt" true; EvSetPermission "f1"; EvGetFile "f1"]
    /\ script w' = [].
Proof.
  destruct (upload_file_clean_session (sample_env None false) 0
              (sample_args "a.txt" false) [100%N; 200%N] "f1" []
              (sample_world false [Progress 100; Progress 200; Finished "f1"])
              eq_refl)
    as (w' & H & Ht & Hs & _).
  - discriminate.
  - right; intros c; reflexivity.
  - reflexivity.
  - exists w'; split; [exact H | split; [exact Ht | exact Hs]].
Defined.

Lemma chunk_loop_transient_run env self a st ct content text rs :
  cancel_at env = None ->
  In st retryable_status ->
  forall k retries w,
    retries + k <= 10 ->
    exists W,
      chunk_loop env self a
        (repeat (Failure (HttpError st ct content text)) k ++ rs) retries w
      = chunk_loop env self a rs (retries + k) W
      /\ trace W = (trace w ++ repeat (EvNextChunk (file_path a)) k)%list
      /\ status W = status w
      /\ (k = 0 -> W = w)
      /\ (k <> 0 -> script W = rs)
      /\ counters_kept w W.
Proof.
  intros Hnc Hin; induction k as [|k IH]; intros retries w Hle.
  - exists w; rewrite Nat.add_0_r, app_nil_r.
    repeat split; try reflexivity. intros H; contradiction H; reflexivity.
  - simpl repeat; simpl app.
    rewrite chunk_loop_http_error by (apply cancelled_never; exact Hnc).
    rewrite retried_in_place_transient by (exact Hin || lia).
    destruct (IH (S retries)
                (after_request a
                   (repeat (Failure (HttpError st ct content text)) k ++ rs) w))
      as (W & HW & Ht & Hst & Hz & Hsc & Hk); [lia|].
    exists W; split; [rewrite HW; f_equal; lia|].
    split; [rewrite Ht; simpl; rewrite <- app_assoc; reflexivity|].
    split; [exact Hst|].
    split; [intros E; discriminate E|].
    split.
    + intros _; destruct k as [|k'].
      * rewrite (Hz eq_refl); reflexivity.
      * apply Hsc; discriminate.
    + destruct Hk as [K1 K2]; split; [exact K1 | exact K2].
Qed.

(** X13.  Transient failures at the start of a session.  When the job is never
    cancelled, up to ten chunk requests in a row that fail with a status
    among 500, 502, 503, 504 and 429 at the start of an attempt are
    absorbed: the attempt goes on as it would have without them, with the
    requests logged, the progress of the session untouched and the retry
    counter at their number. *)
Theorem upload_file_body_absorbs_transient_failures :
  forall env self a st ct content text k rs w,
    cancel_at env = None ->
    getsize env (file_path a) <> 0%N ->
    In st retryable_status ->
    0 < k <= 10 ->
    script w = (repeat (Failure (HttpError st ct content text)) k ++ rs)%list ->
    exists W,
      upload_file_body env self a w = chunk_loop env self a rs k W
      /\ trace W = (trace w ++ repeat (EvNextChunk (file_path a)) k)%list
      /\ status W = status w
      /\ script W = rs
      /\ counters_kept w W.
Proof.
  intros env self a st ct content text k rs w Hnc Hsz Hin [Hk0 Hk] Hs.
  destruct (chunk_loop_transient_run env self a st ct content text rs Hnc Hin
              k 0 w) as (W & HW & Ht & Hst & _ & Hsc & Hc); [lia|].
  exists W; split.
  - unfold upload_file_body.
    apply N.eqb_neq in Hsz; rewrite Hsz, Hs; exact HW.
  - split; [exact Ht|]. split; [exact Hst|].
    split; [apply Hsc; lia | exact Hc].
Qed.

Lemma upload_file_body_absorbs_transient_failures_witness :
  exists W,
    upload_file_body (sample_env None false)
      (_upload_file (sample_env None false) 1) (sample_args "a.txt" false)
      (sample_world false (repeat (Failure backend_503) 10 ++ [Finished "f1"]))
    = chunk_loop (sample_env None false)
        (_upload_file (sample_env None false) 1) (sample_args "a.txt" false)
        [Finished "f1"] 10 W
    /\ trace W = repeat (EvNextChunk "a.txt") 10
    /\ script W = [Finished "f1"].
Proof.
  destruct (upload_file_body_absorbs_transient_failures
              (sample_env None false) (_upload_file (sample_env None false) 1)
              (sample_args "a.txt" false) 503%Z json
              (ErrorPayload (Some "backendError")) "backend error" 10
              [Finished "f1"]
              (sample_world false
                 (repeat (Failure backend_503) 10 ++ [Finished "f1"]))
              eq_refl)
    as (W & H & Ht & _ & Hs & _).
  - discriminate.
  - simpl; tauto.
  - lia.
  - reflexivity.
  - exists W; split; [exact H | split; [exact Ht | exact Hs]].
Defined.

(** ** Zero-length files *)

Lemma retry_loop_respects {A} (R : World -> World -> Prop) (f : M A) :
  (forall w1 w2 w3, R w1 w2 -> R w2 w3 -> R w1 w3) ->
  (forall n w, R w (log (EvSleep n) w)) ->
  respects R f ->
  forall remaining k, respects R (retry_loop remaining k f).
Proof.
  intros Rt Rs Hf; induction remaining as [|n IH]; intros k w r w' H;
    simpl in H; destruct (f w) as [[[v|e] w1]|] eqn:E; try discriminate.
  - inversion H; subst; eapply Hf; exact E.
  - inversion H; subst; eapply Hf; exact E.
  - inversion H; subst; eapply Hf; exact E.
  - apply IH in H.
    eapply Rt; [eapply Hf; exact E|]. eapply Rt; [apply Rs | exact H].
Qed.

(** X15.  A zero-length file never meets the chunk loop.  Over all the attempts
    of the decorated [_upload_file] on a file of size zero, no chunk is
    requested, the local file is never removed and the session progress is
    left as it was; and what is returned, for a nested file too, is a
    link. *)
Theorem upload_file_zero_length_path :
  forall env fuel a w r w',
    getsize env (file_path a) = 0%N ->
    _upload_file env fuel a w = Some (r, w') ->
    status w' = status w
    /\ (exists evs,
          trace w' = (trace w ++ evs)%list
          /\ forallb no_chunk_no_remove evs = true)
    /\ (forall v, r = Return v -> v <> None).
Proof.
  intros env fuel a w r w' Hsz H.
  destruct fuel as [|n]; [discriminate H|]; simpl in H; unfold retry in H.
  set (R := fun w w' : World =>
              status w' = status w
              /\ exists evs, trace w' = (trace w ++ evs)%list
                             /\ forallb no_chunk_no_remove evs = true).
  assert (Hbody : forall w0 r0 w0',
             upload_file_body env (_upload_file env n) a w0 = Some (r0, w0') ->
             R w0 w0' /\ (forall v, r0 = Return v -> v <> None)).
  { intros w0 r0 w0'; unfold upload_file_body; rewrite Hsz.
    change (0 =? 0)%N with true; cbv iota.
    unfold bind, execute_create, set_permission, call, get_file, ret.
    destruct (script w0) as [|[p|id|e] rest]; try discriminate.
    - destruct (negb (IS_TEAM_DRIVE env)); simpl;
        match goal with
        | |- context [get_error ?e ?i ?c] => destruct (get_error e i c)
        end;
        intros E; inversion E; subst;
        (split; [split; [reflexivity|]
                |intros v Ev; first [discriminate Ev | inversion Ev; discriminate]]);
        eexists; simpl; (split; [repeat rewrite <- app_assoc; reflexivity|]);
        reflexivity.
    - intros E; inversion E; subst.
      split; [split; [reflexivity|]|intros v Ev; discriminate Ev].
      eexists; simpl; split; reflexivity. }
  split; [|split].
  - refine (proj1 (retry_loop_respects R _ _ _ _ 2 1 w r w' H)).
    + intros w1 w2 w3 [S1 (e1 & T1 & F1)] [S2 (e2 & T2 & F2)]; split;
        [congruence|].
      exists (e1 ++ e2)%list; split;
        [rewrite T2, T1, app_assoc; reflexivity
        |rewrite forallb_app, F1, F2; reflexivity].
    + intros k w0; split; [reflexivity|].
      exists [EvSleep k]; split; reflexivity.
    + intros w0 r0 w0' E; exact (proj1 (Hbody _ _ _ E)).
  - refine (proj2 (retry_loop_respects R _ _ _ _ 2 1 w r w' H)).
    + intros w1 w2 w3 [S1 (e1 & T1 & F1)] [S2 (e2 & T2 & F2)]; split;
        [congruence|].
      exists (e1 ++ e2)%list; split;
        [rewrite T2, T1, app_assoc; reflexivity
        |rewrite forallb_app, F1, F2; reflexivity].
    + intros k w0; split; [reflexivity|].
      exists [EvSleep k]; split; reflexivity.
    + intros w0 r0 w0' E; exact (proj1 (Hbody _ _ _ E)).
  - intros v ->.
    destruct (retry_loop_returns _ _ _ _ _ _ H) as [w0 H0].
    exact (proj2 (Hbody _ _ _ H0) v eq_refl).
Qed.

Lemma upload_file_zero_length_path_witness :
  exists r w',
    _upload_file (sample_env (Some 0) false) 1 (sample_args "empty.txt" true)
      (sample_world false [Failure backend_503; Finished "f1"])
    = Some (r, w')
    /\ (forall v, r = Return v -> v <> None)
    /\ status w' = None.
Proof.
  eassert (H : _upload_file (sample_env (Some 0) false) 1
                 (sample_args "empty.txt" true)
                 (sample_world false [Failure backend_503; Finished "f1"])
               = Some (_, _)) by (vm_compute; reflexivity).
  pose proof (fun Hz => upload_file_zero_length_path _ _ _ _ _ _ Hz H) as K.
  destruct (K eq_refl) as (Hs & _ & Hv).
  eexists; eexists; split; [exact H | split; [exact Hv | exact Hs]].
Defined.

(** ** Destination prefixes *)

Lemma startswith_cut d p :
  PyStr.startswith d p = true -> (p ++ PyStr.replace_prefix p d)%string = d.
Proof.
  unfold PyStr.startswith, PyStr.replace_prefix; revert d.
  induction p as [|a p IH]; intros d H; [reflexivity|].
  destruct d as [|b d]; [discriminate H|].
  simpl in H; destruct (ascii_dec a b) as [->|]; [|discriminate H].
  simpl; rewrite (IH _ H); reflexivity.
Qed.

(** X1.  [user_setting] cuts at most one prefix off the destination, the first
    of [mtp:], [tp:] and [sa:] that it starts with, and sets the identity
    mode by it: single identity for the first two, the pool for the
    third.  A destination with none of them leaves everything as it was. *)
Theorem user_setting_cuts_one_prefix :
  forall w,
    (up_dest w = ("mtp:" ++ up_dest (user_setting w))%string
     /\ use_sa (user_setting w) = false)
    \/ (up_dest w = ("tp:" ++ up_dest (user_setting w))%string
        /\ use_sa (user_setting w) = false)
    \/ (up_dest w = ("sa:" ++ up_dest (user_setting w))%string
        /\ use_sa (user_setting w) = true)
    \/ (user_setting w = w
        /\ PyStr.startswith (up_dest w) "mtp:" = false
        /\ PyStr.startswith (up_dest w) "tp:" = false
        /\ PyStr.startswith (up_dest w) "sa:" = false).
Proof.
  intros w; unfold user_setting.
  destruct (PyStr.startswith (up_dest w) "mtp:") eqn:H1.
  { left; split; [|reflexivity].
    symmetry; exact (startswith_cut _ _ H1). }
  destruct (PyStr.startswith (up_dest w) "tp:") eqn:H2.
  { right; left; split; [|reflexivity].
    symmetry; exact (startswith_cut _ _ H2). }
  destruct (PyStr.startswith (up_dest w) "sa:") eqn:H3.
  { right; right; left; split; [|reflexivity].
    symmetry; exact (startswith_cut _ _ H3). }
  right; right; right; auto.
Qed.

(** ** More on the retry policy and on failures *)

(** Two attempts that raise and a third that returns: the decorated
    [_upload_file] returns what the third attempt returns, after sleeps of
    3 and 4 seconds, and the two exceptions are dropped. *)
Theorem upload_file_third_attempt_returns :
  forall env fuel a w e1 w1 e2 w2 v w3,
    upload_file_body env (_upload_file env fuel) a w = Some (Raise e1, w1) ->
    upload_file_body env (_upload_file env fuel) a (log (EvSleep 3) w1)
    = Some (Raise e2, w2) ->
    upload_file_body env (_upload_file env fuel) a (log (EvSleep 4) w2)
    = Some (Return v, w3) ->
    _upload_file env (S fuel) a w = Some (Return v, w3).
Proof.
  intros env fuel a w e1 w1 e2 w2 v w3 H1 H2 H3.
  exact (retry_third_attempt_returns _ _ _ _ _ _ _ _ H1 H2 H3).
Qed.

Lemma upload_file_third_attempt_returns_witness :
  summary
    (_upload_file (sample_env None false) 1 (sample_args "a.txt" false)
       (sample_world false
          [Failure (forbidden_403 "a"); Failure (forbidden_403 "b");
           Finished "f1"]))
  = Some (Return (Some "file-base/f1"),
          [EvNextChunk "a.txt"; EvSleep 3; EvNextChunk "a.txt"; EvSleep 4;
           EvNextChunk "a.txt"; EvRemove "a.txt" true; EvSetPermission "f1";
           EvGetFile "f1"]).
Proof.
  eassert (H1 : upload_file_body (sample_env None false)
                  (_upload_file (sample_env None false) 0)
                  (sample_args "a.txt" false)
                  (sample_world false
                     [Failure (forbidden_403 "a"); Failure (forbidden_403 "b");
                      Finished "f1"])
                = Some (Raise _, _)) by (vm_compute; reflexivity).
  match type of H1 with
  | _ = Some (_, ?w1) =>
      eassert (H2 : upload_file_body (sample_env None false)
                      (_upload_file (sample_env None false) 0)
                      (sample_args "a.txt" false) (log (EvSleep 3) w1)
                    = Some (Raise _, _)) by (vm_compute; reflexivity)
  end.
  match type of H2 with
  | _ = Some (_, ?w2) =>
      eassert (H3 : upload_file_body (sample_env None false)
                      (_upload_file (sample_env None false) 0)
                      (sample_args "a.txt" false) (log (EvSleep 4) w2)
                    = Some (Return _, _)) by (vm_compute; reflexivity)
  end.
  rewrite (upload_file_third_attempt_returns _ _ _ _ _ _ _ _ _ _ H1 H2 H3).
  reflexivity.
Defined.

(** X14.  A JSON error response whose body does not have the shape the handler
    reads makes the attempt raise the exception of that reading; the HTTP
    error itself is lost, whatever its reason would have been. *)
Theorem chunk_loop_malformed_payload :
  forall env self a st ct cls msg text rest retries w,
    cancelled env w = false ->
    retried_in_place st retries = false ->
    PyStr.startswith ct "application/json" = true ->
    chunk_loop env self a
      (Failure (HttpError st ct (BadPayload cls msg) text) :: rest) retries w
    = Some (Raise (PyError cls msg), after_request a rest w).
Proof.
  intros env self a st ct cls msg text rest retries w Hc Hr Hj.
  rewrite chunk_loop_http_error by exact Hc.
  rewrite Hr, Hj; reflexivity.
Qed.

Lemma chunk_loop_malformed_payload_witness :
  chunk_loop (sample_env None false) (_upload_file (sample_env None false) 1)
    (sample_args "a.txt" false)
    [Failure (HttpError 403 json (BadPayload "AttributeError" "no get") "x")]
    0 (sample_world true [])
  = Some (Raise (PyError "AttributeError" "no get"),
          after_request (sample_args "a.txt" false) [] (sample_world true [])).
Proof.
  apply (chunk_loop_malformed_payload (sample_env None false)
           (_upload_file (sample_env None false) 1)
           (sample_args "a.txt" false) 403%Z json "AttributeError" "no get" "x"
           [] 0 (sample_world true [])); reflexivity.
Defined.

(** X10.  The text handed to the error callback: [sanitize] leaves no angle
    bracket, and applying it again changes nothing. *)
Theorem sanitize_removes_angle_brackets :
  forall s,
    bracket_free (sanitize s) = true
    /\ sanitize (sanitize s) = sanitize s.
Proof.
  intros s; split; [apply sanitize_bracket_free|].
  apply sanitize_fixes_bracket_free, sanitize_bracket_free.
Qed.

(** ** Uploads that complete *)

(** X18.  A walk that runs to its end counts the tree.  When the job is never
    cancelled and the walk of a directory returns, the file counter has
    gone up by the number of files of the whole tree that pass the filter
    and the folder counter by the number of its sub-directories. *)
Theorem upload_dir_counts_whole_tree :
  forall env un ft fuel dir items dest w v w',
    cancel_at env = None ->
    _upload_dir env fuel dir items dest un ft w = Some (Return v, w') ->
    total_files w' = total_files w + list_sum (map (files_in env un dir) items)
    /\ total_folders w' = total_folders w + list_sum (map folders_in items).
Proof.
  intros env un ft fuel dir items dest w v w' Hnc H.
  exact (upload_dir_counts env un ft Hnc fuel dir items dest w v w' H).
Qed.

Lemma upload_dir_counts_whole_tree_witness :
  exists v w',
    _upload_dir (sample_env None false) 3 "d"
      [File "a.txt"; Dir "s" [File "b.zip"; File "c.txt"]; File "e.zip"]
      (Some "folder1") [] []
      (sample_world false [Finished "f1"; Progress 1; Finished "f2"])
    = Some (Return v, w')
    /\ total_files w' = 2 /\ total_folders w' = 1.
Proof.
  eassert (H : _upload_dir (sample_env None false) 3 "d"
                 [File "a.txt"; Dir "s" [File "b.zip"; File "c.txt"];
                  File "e.zip"]
                 (Some "folder1") [] []
                 (sample_world false [Finished "f1"; Progress 1; Finished "f2"])
               = Some (Return _, _)) by (vm_compute; reflexivity).
  pose proof (fun Hn => upload_dir_counts_whole_tree _ _ _ _ _ _ _ _ _ _ Hn H)
    as K.
  destruct (K eq_refl) as [Kf Kd].
  eexists; eexists; split; [exact H | split; [exact Kf | exact Kd]].
Defined.

(** X9.  A directory upload that completes.  When the job is never cancelled
    and the walk below the top-level folder returns, [upload] returns
    having told the job one completion: the link of the top-level folder
    made at the start, the counters raised by the files of the tree that
    pass the filter and by its sub-directories, and the kind "Folder". *)
Theorem upload_directory_completes :
  forall env fuel name items path un ft w v w2,
    cancel_at env = None ->
    _upload_dir env fuel path items
      (Some (new_folder_id env (clock (upload_begin w)))) un ft
      (log (EvCreateDirectory (top_folder_name env)
              (Some (up_dest (upload_begin w)))
              (new_folder_id env (clock (upload_begin w))))
           (upload_begin w))
    = Some (Return v, w2) ->
    upload env fuel (Dir name items) path un ft w
    = Some (Return tt,
            mkJob (tick (tick (log EvUpdaterCancel (tick w2))))
              [OnUploadComplete
                 (G_DRIVE_DIR_BASE_DOWNLOAD_URL env
                    (new_folder_id env (clock (upload_begin w))))
                 (total_files w + list_sum (map (files_in env un path) items))
                 (total_folders w + list_sum (map folders_in items))
                 "Folder"
                 (get_id_from_url env
                    (G_DRIVE_DIR_BASE_DOWNLOAD_URL env
                       (new_folder_id env (clock (upload_begin w)))))]
              false).
Proof.
  intros env fuel name items path un ft w v w2 Hnc H.
  destruct (upload_dir_counts env un ft Hnc _ _ _ _ _ _ _ H) as [Hf Hd].
  assert (Hv : v <> None) by exact (upload_dir_returns_some_aux _ _ _ _ _ _ _ _ _ _ H).
  destruct v as [x|]; [clear Hv | contradiction Hv; reflexivity].
  unfold upload, upload_guarded, upload_try.
  unfold bind at 1, gets at 1; unfold bind at 1, create_directory at 1.
  unfold bind at 1; rewrite H.
  unfold bind, is_cancelled, ret, upload_except, upload_finally.
  simpl world; simpl is_errored; simpl callbacks.
  rewrite !(cancelled_never _ _ Hnc); simpl andb; cbv iota.
  simpl link; cbv iota.
  change (total_files (tick (log EvUpdaterCancel (tick w2))))
    with (total_files w2).
  change (total_folders (tick (log EvUpdaterCancel (tick w2))))
    with (total_folders w2).
  rewrite Hf, Hd.
  destruct (user_setting_keeps w) as (_ & _ & _ & Kf & Kd & _).
  change (total_files (log _ (upload_begin w)))
    with (total_files (user_setting w)).
  change (total_folders (log _ (upload_begin w)))
    with (total_folders (user_setting w)).
  rewrite Kf, Kd; reflexivity.
Qed.

Lemma upload_directory_completes_witness :
  exists j,
    upload (sample_env None false) 3 (Dir "d" [File "a.txt"; File "b.zip"])
      "d" [] [] (sample_world false [Finished "f1"])
    = Some (Return tt, j)
    /\ callbacks j
       = [OnUploadComplete "folder-base/folder1" 1 0 "Folder"
            "folder-base/folder1"].
Proof.
  eassert (H : _upload_dir (sample_env None false) 3 "d"
                 [File "a.txt"; File "b.zip"] (Some "folder1") [] []
                 (log (EvCreateDirectory "top" (Some "root") "folder1")
                    (upload_begin (sample_world false [Finished "f1"])))
               = Some (Return _, _)) by (vm_compute; reflexivity).
  eexists; split.
  - exact (upload_directory_completes (sample_env None false) 3 "d"
             [File "a.txt"; File "b.zip"] "d" [] []
             (sample_world false [Finished "f1"]) _ _ eq_refl H).
  - reflexivity.
Defined.

Lemma cancelled_tick_false env w :
  cancelled env (tick w) = false -> cancelled env w = false.
Proof.
  intros H; destruct (cancelled env w) eqn:E; [|reflexivity].
  rewrite (cancelled_tick _ _ E) in H; discriminate H.
Qed.

(** X8.  A single-file upload that completes.  When the decorated
    [_upload_file] returns a link and the read of the flag in the
    [finally] clause finds it unset, [upload] tells the job one
    completion, with that link and the mime type of the file; the two
    counters are reported as they were, the file itself not being
    counted. *)
Theorem upload_single_file_completes :
  forall env fuel name path un ft w lk w2,
    PyStr.endswith_any (PyStr.lower path) (extension_filter env) = false ->
    _upload_file env fuel
      (mkArgs path (listener_name env) (get_mime_type env path)
              (Some (up_dest (upload_begin w))) ft false)
      (upload_begin w) = Some (Return (Some lk), w2) ->
    cancelled env (log EvUpdaterCancel (tick w2)) = false ->
    upload env fuel (File name) path un ft w
    = Some (Return tt,
            mkJob (tick (tick (log EvUpdaterCancel (tick w2))))
              [OnUploadComplete lk (total_files w) (total_folders w)
                 (get_mime_type env path) (get_id_from_url env lk)]
              false).
Proof.
  intros env fuel name path un ft w lk w2 Hf H Hc.
  destruct (keeps_upload_file _ _ _ _ _ _ H) as [Kf Kd].
  assert (Hc2 : cancelled env w2 = false).
  { apply cancelled_tick_false.
    apply cancelled_tick_false; exact Hc. }
  unfold upload, upload_guarded, upload_try; rewrite Hf.
  unfold bind at 1, gets at 1; unfold bind at 1; rewrite H.
  unfold bind, is_cancelled, ret; rewrite Hc2.
  unfold upload_except, upload_finally.
  simpl world; simpl is_errored; simpl callbacks.
  rewrite Hc; simpl andb; cbv iota; simpl link; cbv iota.
  change (total_files (tick (log EvUpdaterCancel (tick w2))))
    with (total_files w2).
  change (total_folders (tick (log EvUpdaterCancel (tick w2))))
    with (total_folders w2).
  rewrite Kf, Kd.
  destruct (user_setting_keeps w) as (_ & _ & _ & Uf & Ud & _).
  change (total_files (upload_begin w)) with (total_files (user_setting w)).
  change (total_folders (upload_begin w)) with (total_folders (user_setting w)).
  rewrite Uf, Ud; reflexivity.
Qed.

Lemma upload_single_file_completes_witness :
  exists j,
    upload (sample_env (Some 100) false) 1 (File "a.txt") "a.txt" [] []
      (sample_world false [Progress 100; Finished "f1"])
    = Some (Return tt, j)
    /\ callbacks j
       = [OnUploadComplete "file-base/f1" 0 0 "text/plain" "file-base/f1"].
Proof.
  eassert (H : _upload_file (sample_env (Some 100) false) 1
                 (mkArgs "a.txt" "a.txt" "text/plain" (Some "root") [] false)
                 (upload_begin (sample_world false [Progress 100; Finished "f1"]))
               = Some (Return (Some _), _)) by (vm_compute; reflexivity).
  eexists; split.
  - apply (upload_single_file_completes (sample_env (Some 100) false) 1
             "a.txt" "a.txt" [] [] _ _ _ eq_refl H); reflexivity.
  - reflexivity.
Defined.

(** ** The walker under cancellation *)

Lemma steady_upload_dir_entry env fuel dir dest un ft item :
  respects (steady env)
    (upload_dir_entry env
       (fun p items d => _upload_dir env fuel p items d un ft)
       (_upload_file env fuel) dir dest un ft item).
Proof.
  apply (respects_upload_dir_entry env (steady env) (steady_refl env)
           (steady_trans env) (steady_log env)
           (steady_set_total_files env) (steady_set_total_folders env)).
  - intros p items d; apply steady_upload_dir.
  - intros a; apply steady_upload_file.
Qed.

Lemma cancelled_later env w w' :
  clock w <= clock w' -> cancelled env w = true -> cancelled env w' = true.
Proof.
  unfold cancelled; destruct (cancel_at env) as [t|]; [|discriminate].
  intros Hle H; apply Nat.leb_le in H; apply Nat.leb_le; lia.
Qed.

(** X19.  The walker reads the flag only after an entry.  A walk that starts
    with the flag already set still handles the first entry of the
    directory (a first sub-directory gets its remote folder and is walked
    in turn, an excluded first file is removed if the flags say so), and
    stops there: the result is that of the first entry, whatever entries
    follow. *)
Theorem upload_dir_cancelled_handles_first_entry :
  forall env fuel dir item rest dest un ft w,
    cancelled env w = true ->
    _upload_dir env (S fuel) dir (item :: rest) dest un ft w
    = match
        upload_dir_entry env
          (fun p items d => _upload_dir env fuel p items d un ft)
          (_upload_file env fuel) dir dest un ft item
          (log (EvListdir dir) w)
      with
      | Some (Return v, w1) => Some (Return v, tick w1)
      | other => other
      end.
Proof.
  intros env fuel dir item rest dest un ft w Hc.
  simpl; unfold bind at 1, call at 1; unfold bind at 1.
  destruct (upload_dir_entry env _ (_upload_file env fuel) dir dest un ft item
              (log (EvListdir dir) w)) as [[[v|e] w1]|] eqn:E; try reflexivity.
  destruct (steady_upload_dir_entry _ _ _ _ _ _ _ _ _ _ E) as (_ & _ & Hcl & _).
  unfold bind, is_cancelled.
  rewrite (cancelled_later env w w1); [reflexivity | simpl in Hcl; lia | exact Hc].
Qed.

Lemma upload_dir_cancelled_handles_first_entry_witness :
  summary
    (_upload_dir (sample_env (Some 0) false) 2 "d"
       [Dir "s" [File "b.zip"]; File "a.txt"] (Some "folder1") [] []
       (sample_world false [Finished "f1"]))
  = Some (Return (Some "filter"),
          [EvListdir "d"; EvCreateDirectory "s" (Some "folder1") "folder1";
           EvListdir "d/s"; EvRemove "d/s/b.zip" true]).
Proof.
  rewrite (upload_dir_cancelled_handles_first_entry (sample_env (Some 0) false)
             1 "d" (Dir "s" [File "b.zip"]) [File "a.txt"] (Some "folder1")
             [] [] (sample_world false [Finished "f1"]) eq_refl).
  vm_compute; reflexivity.
Defined.

(** ** Names and suffixes *)

Lemma substring_none s : forall n, substring n 0 s = EmptyString.
Proof.
  induction s as [|c s IH]; intros [|n]; simpl; try reflexivity; apply IH.
Qed.

Lemma substring_all s : substring 0 (String.length s) s = s.
Proof. induction s as [|c s IH]; simpl; [reflexivity | rewrite IH; reflexivity]. Qed.

Lemma suffix_split s :
  forall m, m <= String.length s ->
  exists pre, s = (pre ++ substring (String.length s - m) m s)%string.
Proof.
  induction s as [|c s IH]; intros m Hle.
  - simpl in Hle; assert (m = 0) by lia; subst; exists EmptyString; reflexivity.
  - simpl String.length in *.
    destruct (Nat.eq_dec m (S (String.length s))) as [->|Hne].
    + exists EmptyString; rewrite Nat.sub_diag; simpl.
      rewrite substring_all; reflexivity.
    + assert (Hm : m <= String.length s) by lia.
      destruct (IH m Hm) as [pre Hpre].
      exists (String c pre).
      replace (S (String.length s) - m) with (S (String.length s - m)) by lia.
      simpl; rewrite <- Hpre; reflexivity.
Qed.

Lemma endswith_split s suf :
  PyStr.endswith s suf = true -> exists pre, s = (pre ++ suf)%string.
Proof.
  unfold PyStr.endswith; intros H.
  apply andb_true_iff in H; destruct H as [Hle He].
  apply Nat.leb_le in Hle; apply String.eqb_eq in He.
  destruct (suffix_split s _ Hle) as [pre Hpre].
  exists pre; rewrite <- He; exact Hpre.
Qed.

Lemma endswith_empty s : PyStr.endswith s EmptyString = true.
Proof.
  unfold PyStr.endswith; simpl; rewrite Nat.sub_0_r, substring_none; reflexivity.
Qed.

Lemma lower_ascii_twice c :
  PyStr.lower_ascii (PyStr.lower_ascii c) = PyStr.lower_ascii c.
Proof.
  destruct c as [[] [] [] [] [] [] [] []]; reflexivity.
Qed.

Lemma lower_has_no_upper s : has_upper (PyStr.lower s) = false.
Proof.
  induction s as [|c s IH]; [reflexivity|].
  simpl; rewrite lower_ascii_twice, Ascii.eqb_refl, IH; reflexivity.
Qed.

Lemma has_upper_app s1 s2 :
  has_upper (s1 ++ s2) = (has_upper s1 || has_upper s2)%bool.
Proof.
  induction s1 as [|c s1 IH]; [reflexivity|].
  simpl; rewrite IH, orb_assoc; reflexivity.
Qed.

Lemma endswith_lower_upper name suf :
  has_upper suf = true -> PyStr.endswith (PyStr.lower name) suf = false.
Proof.
  intros Hu; destruct (PyStr.endswith (PyStr.lower name) suf) eqn:E;
    [|reflexivity].
  destruct (endswith_split _ _ E) as [pre Hpre].
  pose proof (lower_has_no_upper name) as Hn.
  rewrite Hpre, has_upper_app, Hu, orb_true_r in Hn; discriminate Hn.
Qed.

(** X20.  Entries of the extension filter at the edges.  The names are lowered
    before the comparison and the entries are not: an entry holding an
    upper-case letter matches no file, so that a filter made of such
    entries only lets every file not listed as unwanted through; and an
    empty entry matches every file, so that a filter holding one excludes
    every file of a walk. *)
Theorem extension_filter_edge_entries :
  forall env un current_file_name item,
    (In EmptyString (extension_filter env) ->
     wanted env un current_file_name item = false)
    /\ (forallb has_upper (extension_filter env) = true ->
        PyStr.mem current_file_name un = false ->
        wanted env un current_file_name item = true).
Proof.
  intros env un p item; unfold wanted, PyStr.endswith_any; split.
  - intros Hin.
    assert (E : existsb (PyStr.endswith (PyStr.lower item))
                  (extension_filter env) = true).
    { apply existsb_exists; exists EmptyString; split;
        [exact Hin | apply endswith_empty]. }
    rewrite E; apply andb_false_r.
  - intros Hall Hm; rewrite Hm; simpl.
    apply negb_true_iff.
    destruct (existsb _ (extension_filter env)) eqn:E; [|reflexivity].
    apply existsb_exists in E; destruct E as (suf & Hin & He).
    rewrite forallb_forall in Hall.
    rewrite (endswith_lower_upper item suf (Hall _ Hin)) in He; discriminate He.
Qed.

Lemma extension_filter_edge_entries_witness :
  wanted (mkEnv None false false [".zip"; EmptyString] "n" 2 false
            (fun _ => 1%N) (fun _ => "m") (fun _ => false) "t" (fun _ => "i")
            (fun x => x) (fun x => x) (fun x => x)
            (fun p => PyError "FileNotFoundError" p) (fun _ _ => None)
            (fun _ => None) "0x0")
         [] "d/a.txt" "a.txt" = false
  /\ wanted (mkEnv None false false [".ZIP"] "n" 2 false
               (fun _ => 1%N) (fun _ => "m") (fun _ => false) "t" (fun _ => "i")
               (fun x => x) (fun x => x) (fun x => x)
            (fun p => PyError "FileNotFoundError" p) (fun _ _ => None)
            (fun _ => None) "0x0")
            [] "d/A.ZIP" "A.ZIP" = true.
Proof.
  split.
  - apply (proj1 (extension_filter_edge_entries _ _ _ _)).
    simpl; tauto.
  - apply (proj2 (extension_filter_edge_entries _ _ _ _)); reflexivity.
Defined.

Lemma last_segment_from_plain name :
  has_slash name = false ->
  forall acc, PyStr.last_segment_from acc name = (acc ++ name)%string.
Proof.
  induction name as [|c name IH]; intros Hs acc; simpl.
  - induction acc as [|a acc IHa]; [reflexivity | simpl; rewrite <- IHa; reflexivity].
  - simpl in Hs; apply orb_false_iff in Hs; destruct Hs as [Hc Hn].
    rewrite Hc, (IH Hn).
    induction acc as [|a acc IHa]; [reflexivity | simpl; rewrite IHa; reflexivity].
Qed.

Lemma last_segment_from_slash name :
  has_slash name = false ->
  forall s acc,
    PyStr.last_segment_from acc (s ++ String PyStr.slash name) = name.
Proof.
  intros Hs; induction s as [|c s IH]; intros acc; simpl.
  - apply (last_segment_from_plain name Hs EmptyString).
  - destruct (Ascii.eqb c PyStr.slash); apply IH.
Qed.

Lemma string_app_assoc (s1 s2 s3 : string) :
  ((s1 ++ s2) ++ s3 = s1 ++ (s2 ++ s3))%string.
Proof. induction s1 as [|c s1 IH]; simpl; [reflexivity | rewrite IH; reflexivity]. Qed.

(** For an entry whose name holds no slash, as the entries of a listing
    do, the last segment of its joined path is the entry's own name,
    whatever the directory. *)
Lemma last_segment_join dir name :
  has_slash name = false ->
  PyStr.last_segment (PyStr.join dir name) = name.
Proof.
  intros Hs; unfold PyStr.last_segment, PyStr.join.
  assert (Hp : PyStr.startswith name "/" = false).
  { destruct name as [|c name]; [reflexivity|].
    simpl in Hs; apply orb_false_iff in Hs; destruct Hs as [Hc _].
    unfold PyStr.startswith.
    change (String.prefix "/" (String c name))
      with (match ascii_dec "/"%char c with
            | left _ => String.prefix EmptyString name
            | right _ => false
            end).
    destruct (ascii_dec "/"%char c) as [<-|]; [discriminate Hc|reflexivity]. }
  rewrite Hp.
  destruct (String.eqb dir EmptyString) eqn:Hd.
  - apply String.eqb_eq in Hd; subst; simpl.
    apply (last_segment_from_plain name Hs EmptyString).
  - simpl orb; destruct (PyStr.endswith dir "/") eqn:He.
    + destruct (endswith_split _ _ He) as [pre ->].
      rewrite string_app_assoc; simpl.
      apply last_segment_from_slash; exact Hs.
    + apply (last_segment_from_slash name Hs dir EmptyString).
Qed.

(** X21.  The call the walker makes for a file.  For an entry of a listing
    that is to be transferred and whose name holds no slash, one turn of
    the walker's loop is one call of the transfer client with the joined
    path as the local path, the entry's own name as the name of the remote
    file, the mime type found for the joined path, the folder being filled
    as parent and the nested flag set; when the call returns, one is added
    to the file counter and the folder being filled is the turn's value. *)
Theorem walk_uploads_under_entry_name :
  forall env self_dir upload_file dir dest un ft name,
    has_slash name = false ->
    wanted env un (PyStr.join dir name) name = true ->
    upload_dir_entry env self_dir upload_file dir dest un ft (File name)
    = (_ <- upload_file
              (mkArgs (PyStr.join dir name) name
                      (get_mime_type env (PyStr.join dir name)) dest ft true) ;;
       modify (fun w => set_total_files (total_files w + 1) w) ;;;
       ret dest).
Proof.
  intros env self_dir upload_file dir dest un ft name Hs Hw.
  rewrite upload_dir_entry_wanted by exact Hw.
  rewrite (last_segment_join dir name Hs); reflexivity.
Qed.

Lemma walk_uploads_under_entry_name_witness :
  upload_dir_entry (sample_env None false)
    (fun p items d => _upload_dir (sample_env None false) 1 p items d [] [])
    (_upload_file (sample_env None false) 1) "downloads/job/" (Some "folder1")
    [] [] (File "a.txt")
  = (_ <- _upload_file (sample_env None false) 1
            (mkArgs "downloads/job/a.txt" "a.txt" "text/plain" (Some "folder1")
                    [] true) ;;
     modify (fun w => set_total_files (total_files w + 1) w) ;;;
     ret (Some "folder1")).
Proof.
  exact (walk_uploads_under_entry_name (sample_env None false)
           (fun p items d => _upload_dir (sample_env None false) 1 p items d [] [])
           (_upload_file (sample_env None false) 1) "downloads/job/"
           (Some "folder1") [] [] "a.txt" eq_refl eq_refl).
Defined.

(** ** [upload] returns *)

Lemma upload_try_file_link env fuel name path un ft w l w1 :
  upload_try env fuel (File name) path un ft w = Some (Return l, w1) ->
  l_mime_type l = get_mime_type env path
  /\ (link l = None -> cancelled env w1 = true).
Proof.
  unfold upload_try.
  destruct (PyStr.endswith_any _ _); [discriminate|].
  unfold bind, gets, is_cancelled.
  destruct (_upload_file env fuel _ _) as [[[lk|e] w2]|]; try discriminate.
  destruct (cancelled env w2) eqn:Hc.
  - intros H; inversion H; subst; split; [reflexivity|].
    intros _; apply cancelled_tick; exact Hc.
  - destruct lk; [|discriminate].
    intros H; inversion H; subst; split; [reflexivity | discriminate].
Qed.

Lemma upload_try_dir_link env fuel name items path un ft w l w1 :
  upload_try env fuel (Dir name items) path un ft w = Some (Return l, w1) ->
  link l <> None.
Proof.
  unfold upload_try, bind, gets, create_directory, is_cancelled.
  destruct (_upload_dir env fuel path items _ un ft _) as [[[res|e] w2]|];
    try discriminate.
  destruct res as [x|]; [|discriminate].
  intros H; inversion H; discriminate.
Qed.

(** X6.  The [finally] clause never runs into an unbound local or a missing
    link.  As long as the mime type found for a single-file target is not
    the word that marks a directory, a run of [upload] that comes to its
    end either returns normally or, for a directory whose upload was
    cancelled, raises the exception of the remote deletion that the
    service refused, with no callback made. *)
Theorem upload_raises_only_failed_rollback :
  forall env fuel target path un ft w out j',
    (forall name, target = File name -> get_mime_type env path <> "Folder") ->
    upload env fuel target path un ft w = Some (out, j') ->
    out = Return tt
    \/ exists name items e,
         target = Dir name items
         /\ delete_error env (new_folder_id env (clock (upload_begin w))) = Some e
         /\ out = Raise e
         /\ callbacks j' = []
         /\ is_errored j' = false.
Proof.
  intros env fuel target path un ft w out j' Hm H.
  destruct (upload_inv _ _ _ _ _ _ _ _ _ H) as (r & w1 & Ht & _ & Hfin).
  destruct r as [l|e]; unfold upload_except, upload_finally in Hfin;
    simpl in Hfin.
  - destruct (cancelled env (log EvUpdaterCancel w1)) eqn:Hc; simpl in Hfin.
    + destruct target as [name|name items].
      * destruct (upload_try_file_link _ _ _ _ _ _ _ _ _ Ht) as [Hmt _].
        rewrite Hmt in Hfin.
        assert (E : String.eqb (get_mime_type env path) "Folder" = false)
          by (apply String.eqb_neq; exact (Hm name eq_refl)).
        rewrite E in Hfin; inversion Hfin; left; reflexivity.
      * destruct (upload_try_dir_locals _ _ _ _ _ _ _ _ _ _ Ht) as [Hmt Hd].
        remember (new_folder_id env (clock (upload_begin w))) as d eqn:Ed in *.
        rewrite Hmt, Hd in Hfin; simpl in Hfin.
        destruct (delete_error env d) as [e|] eqn:He;
          inversion Hfin; subst out j'; [right|left; reflexivity].
        exists name, items, e; repeat split; reflexivity.
    + destruct (link l) as [lk|] eqn:Hl; [inversion Hfin; left; reflexivity|].
      exfalso; destruct target as [name|name items].
      * destruct (upload_try_file_link _ _ _ _ _ _ _ _ _ Ht) as [_ Hcl].
        rewrite (cancelled_log env EvUpdaterCancel w1 (Hcl Hl)) in Hc.
        discriminate Hc.
      * exact (upload_try_dir_link _ _ _ _ _ _ _ _ _ _ Ht Hl).
  - rewrite andb_false_r in Hfin; inversion Hfin; left; reflexivity.
Qed.

Lemma upload_raises_only_failed_rollback_witness :
  exists j',
    upload (rollback_refused_env (Some 6)) 2
      (Dir "d" [File "a.txt"; File "c.txt"]) "d" [] []
      (sample_world false [Progress 100; Finished "f1"])
    = Some (Raise rollback_refused, j')
    /\ callbacks j' = [].
Proof.
  eassert (H : upload (rollback_refused_env (Some 6)) 2
                 (Dir "d" [File "a.txt"; File "c.txt"]) "d" [] []
                 (sample_world false [Progress 100; Finished "f1"])
               = Some (Raise rollback_refused, _)) by (vm_compute; reflexivity).
  pose proof (fun Hm => upload_raises_only_failed_rollback _ _ _ _ _ _ _ _ _ Hm H)
    as K.
  assert (E : forall name : string,
             Dir "d" [File "a.txt"; File "c.txt"] = File name ->
             get_mime_type (rollback_refused_env (Some 6)) "d" <> "Folder")
    by (intros name Hn; discriminate Hn).
  destruct (K E) as [Ho | (name & items & e & _ & _ & _ & Hc & _)];
    [discriminate Ho|].
  eexists; split; [exact H | exact Hc].
Defined.

(** ** Local removal and the look-up *)

(** X16.  The local file is removed before the uploaded object is looked up.
    In an attempt of the transfer client on a top-level file with content
    that the deletion policy covers, when the job is never cancelled, the
    service answers the last chunk with the finalized object and the
    look-up of that object fails, the attempt raises the exception of the
    look-up with the local file already removed: the log of the attempt
    is the chunk requests, the removal, the grant of access unless the
    drive is a team drive, and the look-up. *)
Theorem upload_file_body_lookup_fails_after_removal :
  forall env self a ps id rest w e,
    cancel_at env = None ->
    getsize env (file_path a) <> 0%N ->
    in_dir a = false ->
    (negb (seed env) || new_dir env
     || PyStr.mem (file_path a) (ft_delete a))%bool = true ->
    remove_fails env (file_path a) = false ->
    (forall c, get_error env id c = Some e) ->
    script w = (map Progress ps ++ Finished id :: rest)%list ->
    exists w',
      upload_file_body env self a w = Some (Raise e, w')
      /\ trace w'
         = (trace w
            ++ repeat (EvNextChunk (file_path a)) (S (List.length ps))
            ++ [EvRemove (file_path a) true]
            ++ (if IS_TEAM_DRIVE env then [] else [EvSetPermission id])
            ++ [EvGetFile id])%list.
Proof.
  intros env self a ps id rest w e Hnc Hsz Hd Hp Hr Hg Hs.
  destruct (chunk_loop_progress_run env self a id rest 0 Hnc ps w)
    as (W & HW & Ht & _).
  destruct (finish_lookup_fails env a id W e (cancelled_never _ _ Hnc) Hd Hg)
    as (w' & Hf & Ht').
  exists w'; split.
  - unfold upload_file_body.
    apply N.eqb_neq in Hsz; rewrite Hsz, Hs, HW; exact Hf.
  - rewrite Ht', Ht; unfold closing_calls; rewrite Hp, Hr, Hd.
    rewrite <- app_assoc; reflexivity.
Qed.

Lemma upload_file_body_lookup_fails_after_removal_witness :
  exists w',
    upload_file_body lookup_failed_env (_upload_file lookup_failed_env 1)
      (sample_args "a.txt" false)
      (sample_world false [Progress 100; Finished "f1"])
    = Some (Raise lookup_failed, w')
    /\ trace w'
       = [EvNextChunk "a.txt"; EvNextChunk "a.txt"; EvRemove "a.txt" true;
          EvSetPermission "f1"; EvGetFile "f1"].
Proof.
  destruct (upload_file_body_lookup_fails_after_removal lookup_failed_env
              (_upload_file lookup_failed_env 1) (sample_args "a.txt" false)
              [100%N] "f1" []
              (sample_world false [Progress 100; Finished "f1"])
              lookup_failed eq_refl)
    as (w' & H & Ht).
  - discriminate.
  - reflexivity.
  - reflexivity.
  - reflexivity.
  - intros c; reflexivity.
  - reflexivity.
  - exists w'; split; [exact H | exact Ht].
Defined.
